(** * mirage-playwright: the [PlaywrightConfig] interceptor

    A shallow embedding of [src/playwright-config.ts]: the path composer
    ([_getFullPath]), the composer configuration ([config]), the route
    registration surface ([create], the per-verb functions, [passthrough])
    and the request dispatcher ([playwrightHandler]).

    JavaScript strings are modelled as [string] (sequences of 8-bit
    characters; every string literal of the source is ASCII), optional
    fields ([urlPrefix?: string]) as [option], the [router] object as a
    [gmap] from verb names to recognizers, and the mutable instance as an
    explicit state threaded through an exception-and-state monad. *)

From Stdlib Require Import Ascii.
From stdpp Require Import gmap strings list fin_maps pretty.

(** ** JavaScript string primitives used by the source *)

Module JS.

Definition slash : ascii := "/"%char.

(** [s[0]] *)
Definition first (s : string) : option ascii :=
  match s with
  | EmptyString => None
  | String c _ => Some c
  end.

(** [s[s.length - 1]] *)
Fixpoint last (s : string) : option ascii :=
  match s with
  | EmptyString => None
  | String c EmptyString => Some c
  | String _ s' => last s'
  end.

(** [s[0] === "/"] and [s[s.length - 1] === "/"] *)
Definition startsWithSlash (s : string) : bool :=
  match first s with Some c => Ascii.eqb c slash | None => false end.

Definition endsWithSlash (s : string) : bool :=
  match last s with Some c => Ascii.eqb c slash | None => false end.

(** [s.substring(a, b)] for [a <= b]; indices past the end are clamped. *)
Definition substring (a b : nat) (s : string) : string :=
  String.substring a (b - a) s.

(** [s.substring(a)] and [s.slice(a)] for [a >= 0]. *)
Definition substringFrom (a : nat) (s : string) : string :=
  String.substring a (String.length s - a) s.

(** White space removed by [trim], among the code units below 256: tab,
    line feed, vertical tab, form feed, carriage return, space and
    no-break space (160). The other white space of JavaScript (U+FEFF,
    U+1680, U+2000 and above) lies outside these strings. *)
Definition isSpace (c : ascii) : bool :=
  let n := nat_of_ascii c in
  (Nat.leb 9 n && Nat.leb n 13) || Nat.eqb n 32 || Nat.eqb n 160.

Fixpoint trimStart (s : string) : string :=
  match s with
  | EmptyString => EmptyString
  | String c s' => if isSpace c then trimStart s' else s
  end.

Fixpoint trimEnd (s : string) : string :=
  match s with
  | EmptyString => EmptyString
  | String c s' =>
      match trimEnd s' with
      | EmptyString => if isSpace c then EmptyString else String c EmptyString
      | t => String c t
      end
  end.

Definition trim (s : string) : string := trimEnd (trimStart s).

(** [/^https?:\/\//.test(s)] *)
Definition isAbsoluteUrl (s : string) : bool :=
  String.prefix "http://" s || String.prefix "https://" s.

(** [s.replace(/\/+/g, "/")]: every maximal run of slashes becomes one. *)
Fixpoint collapseSlashes (s : string) : string :=
  match s with
  | EmptyString => EmptyString
  | String c s' =>
      if Ascii.eqb c slash then
        match s' with
        | String c' _ =>
            if Ascii.eqb c' slash then collapseSlashes s'
            else String c (collapseSlashes s')
        | EmptyString => String c EmptyString
        end
      else String c (collapseSlashes s')
  end.

(** Truthiness of a [string | undefined] value: [undefined] and the
    empty string are falsy. *)
Definition truthy (v : option string) : bool :=
  match v with
  | Some (String _ _) => true
  | _ => false
  end.

(** [a || b] on [string | undefined] values. *)
Definition or (a b : option string) : option string :=
  if truthy a then a else b.

Definition isUpper (c : ascii) : bool :=
  let n := nat_of_ascii c in Nat.leb 65 n && Nat.leb n 90.

Definition isLower (c : ascii) : bool :=
  let n := nat_of_ascii c in Nat.leb 97 n && Nat.leb n 122.

Definition lowerChar (c : ascii) : ascii :=
  if isUpper c then ascii_of_nat (nat_of_ascii c + 32) else c.

Definition upperChar (c : ascii) : ascii :=
  if isLower c then ascii_of_nat (nat_of_ascii c - 32) else c.

Fixpoint mapChars (f : ascii → ascii) (s : string) : string :=
  match s with
  | EmptyString => EmptyString
  | String c s' => String (f c) (mapChars f s')
  end.

(** [s.toLowerCase()] and [s.toUpperCase()] on ASCII text. *)
Definition toLowerCase : string → string := mapChars lowerChar.
Definition toUpperCase : string → string := mapChars upperChar.

End JS.

(** ** Values exchanged with the collaborators *)

(** The request value handed to a Mirage route handler. *)
Record MirageRequest := {
  requestBody : string;
  requestHeaders : gmap string string;
  url : string;
  params : gmap string string;
  queryParams : gmap string string
}.

(** [MirageRouteHandlerResponse]: the triple [[status, headers, body]]. *)
Record MirageRouteHandlerResponse := {
  status : Z;
  headers : option (gmap string string);
  body : option string
}.

(** What awaiting the value returned by a route handler yields: the
    response, a failure (the handler threw or its promise was rejected),
    or nothing at all when the promise never settles. *)
Inductive Awaited :=
| Resolved (response : MirageRouteHandlerResponse)
| Rejected (reason : string)
| Pending.

Definition RouteHandler : Type := MirageRequest → Awaited.

(** The handlers stored in a route table. The instance's private
    [playwrightPassthroughHandler] is a single function object and the
    dispatcher compares against it with [===], which a match on the
    constructor renders; every other stored handler is a function returned
    by [registerRouteHandler]. *)
Inductive Handler :=
| playwrightPassthroughHandler
| mirageHandler (handler : RouteHandler).

(** A Playwright request as the dispatcher reads it: [method()], [url()],
    the result of awaiting [allHeaders()], and [postData()]. *)
Module PlaywrightRequest.
Record t := {
  method : string;
  url : string;
  allHeaders : gmap string string;
  postData : option string
}.
End PlaywrightRequest.

(** A Playwright page, reduced to the URL patterns for which the
    dispatcher of this instance is installed with [page.route]. The
    handlers are not told apart: [unroute] drops every entry of the
    pattern, which is what [page.unroute(pattern, handler)] does as long as
    the pattern was installed with one handler only. *)
Module Page.
Record t := { routes : list string }.

Definition route (pattern : string) (p : t) : t :=
  {| routes := routes p ++ [pattern] |}.

Definition unroute (pattern : string) (p : t) : t :=
  {| routes := filter (λ q, q ≠ pattern) (routes p) |}.
End Page.

(** Arguments of the per-verb registration functions ([RouteArgs]):
    numbers, strings, functions and plain objects. An object is the list
    of its own properties in insertion order; property values are kept
    only as far as the option objects need them. *)
Inductive Primitive :=
| PUndefined
| PBoolean (b : bool)
| PNumber (n : Z)
| PString (s : string).

Definition Object : Type := list (string * Primitive).

Inductive JSValue :=
| VUndefined
| VNull
| VNumber (n : Z)
| VString (s : string)
| VFunction (id : nat)
| VObject (properties : Object).

(** The Mirage server: the handler factory, the logging switch and the
    per-verb slots ([get], [post], ..., [del]) that [create] assigns, each
    recorded by the verb its function registers under. *)
Module MirageServer.
Record t := {
  registerRouteHandler :
    string → string → JSValue → option Z → Object → RouteHandler;
  shouldLog : bool;
  slots : gmap string string
}.

Definition assign (slot verb : string) (m : t) : t :=
  {| registerRouteHandler := registerRouteHandler m;
     shouldLog := shouldLog m;
     slots := <[slot := verb]> (slots m) |}.
End MirageServer.

(** The configuration object passed to [create] and [config]. *)
Module ServerConfig.
Record t := {
  page : option Page.t;
  interceptUrlPattern : option string;
  urlPrefix : option string;
  namespace : option string
}.
End ServerConfig.

(** ** The route recognizer

    [route-recognizer] is a dependency of the repository, not part of it.
    A recognizer is represented by the registrations it has received, in
    the order of the [add] calls; what [recognize] answers is a function of
    that sequence. The dispatcher below is written against an arbitrary
    such function, and [RouteRecognizer.recognize] is a reference model of
    the package's behaviour on the route shapes this repository registers
    (static, [:dynamic] and [*star] segments; one handler per [add]). It
    leaves out percent-decoding and array-valued query parameters, and it
    breaks ties between equally specific routes by the order of
    registration, where the package follows the order of its state tree;
    the statements below evaluate it only where no tie and no encoding is
    involved. *)

Module RouteRecognizer.

(** The object literal [{ path, handler }] passed to [add]. *)
Record Route := { path : string; handler : Handler }.

(** One entry of the array returned by [recognize]. *)
Record Result := {
  result_handler : Handler;
  result_params : gmap string string;
  isDynamic : bool
}.

(** The array-like value returned by [recognize], with its
    [queryParams] property. *)
Record Results := {
  results : list Result;
  results_queryParams : gmap string string
}.

(** [new RouteRecognizer()] and [add([route])]. *)
Definition t : Type := list Route.
Definition new : t := [].
Definition add (route : Route) (r : t) : t := r ++ [route].

Inductive Segment :=
| Static (value : string)
| Dynamic (name : string)
| Star (name : string)
| Epsilon.

(** [s.split(sep)] for a one-character separator. *)
Fixpoint split (sep : ascii) (s : string) : list string :=
  match s with
  | EmptyString => [EmptyString]
  | String c s' =>
      if Ascii.eqb c sep then EmptyString :: split sep s'
      else match split sep s' with
           | w :: ws => String c w :: ws
           | [] => [String c EmptyString]
           end
  end.

Definition parseSegment (part : string) : Segment :=
  match part with
  | EmptyString => Epsilon
  | String c rest =>
      if Ascii.eqb c ":" then Dynamic rest
      else if Ascii.eqb c "*" then Star rest
      else Static part
  end.

Definition isEpsilon (s : Segment) : bool :=
  match s with Epsilon => true | _ => false end.

(** The segments of a route pattern that take part in matching. *)
Definition parse (route : string) : list Segment :=
  let route := if JS.startsWithSlash route then JS.substringFrom 1 route else route in
  filter (λ s, isEpsilon s = false) (parseSegment <$> split JS.slash route).

(** Two patterns end in the same state of the recognizer when their
    segments agree up to the names of the dynamic and star segments. *)
Definition eraseName (s : Segment) : Segment :=
  match s with
  | Dynamic _ => Dynamic EmptyString
  | Star _ => Star EmptyString
  | _ => s
  end.

#[global] Instance Segment_eq_dec : EqDecision Segment.
Proof. solve_decision. Defined.

Definition sameState (p q : string) : bool :=
  bool_decide (eraseName <$> parse p = eraseName <$> parse q).

(** A later registration of a pattern replaces the handlers of an
    earlier one that ends in the same state. *)
Fixpoint live (r : t) : list Route :=
  match r with
  | [] => []
  | route :: r' =>
      if existsb (λ later, sameState (path route) (path later)) r'
      then live r' else route :: live r'
  end.

(** [stripPrefix p s]: the rest of [s] after the prefix [p]. *)
Fixpoint stripPrefix (p s : string) : option string :=
  match p, s with
  | EmptyString, _ => Some s
  | String a p', String b s' =>
      if Ascii.eqb a b then stripPrefix p' s' else None
  | String _ _, EmptyString => None
  end.

(** The longest prefix without a slash, and the rest. *)
Fixpoint untilSlash (s : string) : string * string :=
  match s with
  | EmptyString => (EmptyString, EmptyString)
  | String c s' =>
      if Ascii.eqb c JS.slash then (EmptyString, s)
      else let '(w, rest) := untilSlash s' in (String c w, rest)
  end.

(** Matching of a path against ["/" seg "/" seg ...], a dynamic segment
    standing for [[^/]+] and a star segment for a greedy [.+]; the
    captures are returned in order. *)
Fixpoint matchSegments (segs : list Segment) (s : string) : option (list string) :=
  match segs with
  | [] => match s with EmptyString => Some [] | _ => None end
  | seg :: segs' =>
      match s with
      | String c s1 =>
          if Ascii.eqb c JS.slash then
            match seg with
            | Static v => stripPrefix v s1 ≫= matchSegments segs'
            | Dynamic _ =>
                let '(w, rest) := untilSlash s1 in
                match w with
                | EmptyString => None
                | _ => cons w <$> matchSegments segs' rest
                end
            | Star _ =>
                (fix star (u : string) : option (list string) :=
                   match u with
                   | EmptyString => None
                   | String d u' =>
                       match star u' with
                       | Some (w :: ws) => Some (String d w :: ws)
                       | _ => cons (String d EmptyString) <$> matchSegments segs' u'
                       end
                   end) s1
            | Epsilon => None
            end
          else None
      | EmptyString => None
      end
  end.

(** A pattern without segments is the root path ["/"]. *)
Definition matchRoute (segs : list Segment) (s : string) : option (list string) :=
  match segs with
  | [] => if String.eqb s "/" then Some [] else None
  | _ => matchSegments segs s
  end.

Definition segmentName (s : Segment) : option string :=
  match s with
  | Dynamic n | Star n => Some n
  | _ => None
  end.

Definition names (segs : list Segment) : list string :=
  omap segmentName segs.

Definition count (f : Segment → bool) (segs : list Segment) : Z :=
  Z.of_nat (length (filter (λ s, f s = true) segs)).

Definition statics := count (λ s, match s with Static _ => true | _ => false end).
Definition dynamics := count (λ s, match s with Dynamic _ => true | _ => false end).
Definition stars := count (λ s, match s with Star _ => true | _ => false end).

(** The comparison function of [sortSolutions]: negative when [a]
    is to come first. *)
Definition compare (a b : list Segment) : Z :=
  if negb (stars a =? stars b)%Z then (stars a - stars b)%Z
  else if negb (stars a =? 0)%Z && negb (statics a =? statics b)%Z
       then (statics b - statics a)%Z
  else if negb (stars a =? 0)%Z && negb (dynamics a =? dynamics b)%Z
       then (dynamics b - dynamics a)%Z
  else if negb (dynamics a =? dynamics b)%Z then (dynamics a - dynamics b)%Z
  else if negb (statics a =? statics b)%Z then (statics b - statics a)%Z
  else 0%Z.

(** Stable insertion of a solution into a sorted list of solutions. *)
Fixpoint insertSolution (x : Route) (l : list Route) : list Route :=
  match l with
  | [] => [x]
  | y :: l' =>
      if (compare (parse (path x)) (parse (path y)) <=? 0)%Z
      then x :: l else y :: insertSolution x l'
  end.

Definition sortSolutions (l : list Route) : list Route :=
  foldr insertSolution [] l.

(** [parseQueryString]: [key=value] pairs separated by [&]; a key
    without [=] has the value ["true"]. *)
Definition parseQueryString (queryString : string) : gmap string string :=
  foldl (λ queryParams pair,
           match split "=" pair with
           | [key] => <[key := "true"%string]> queryParams
           | key :: value :: _ => <[key := value]> queryParams
           | [] => queryParams
           end)
        ∅ (split "&" queryString).

(** The text before the first occurrence of [c], and the text after
    it when there is one. *)
Fixpoint cut (c : ascii) (s : string) : string * option string :=
  match s with
  | EmptyString => (EmptyString, None)
  | String d s' =>
      if Ascii.eqb d c then (EmptyString, Some s')
      else let '(w, rest) := cut c s' in (String d w, rest)
  end.

Definition endsWithStar (segs : list Segment) : bool :=
  match List.last segs Epsilon with Star _ => true | _ => false end.

Definition findHandler (route : Route) (originalPath : string)
    (queryParams : gmap string string) : Results :=
  let segs := parse (path route) in
  let captures := default [] (matchRoute segs originalPath) in
  {| results :=
       [ {| result_handler := handler route;
            result_params := list_to_map (reverse (zip (names segs) captures));
            isDynamic := bool_decide (names segs ≠ []) |} ];
     results_queryParams := queryParams |}.

(** [recognize(path)] *)
Definition recognize (r : t) (path : string) : option Results :=
  let path := (cut "#" path).1 in
  let '(path, queryString) := cut "?" path in
  let queryParams :=
    match queryString with
    | Some q => parseQueryString q
    | None => ∅
    end in
  let path := if JS.startsWithSlash path then path else "/" +:+ path in
  let originalPath := path in
  let isSlashDropped :=
    Nat.ltb 1 (String.length path) && JS.endsWithSlash path in
  let path :=
    if isSlashDropped then JS.substring 0 (String.length path - 1) path else path in
  let originalPath :=
    if isSlashDropped
    then JS.substring 0 (String.length originalPath - 1) originalPath
    else originalPath in
  let solutions :=
    filter (λ route, is_Some (matchRoute (parse (RouteRecognizer.path route)) path))
           (live r) in
  match sortSolutions solutions with
  | [] => None
  | state :: _ =>
      let originalPath :=
        if isSlashDropped && endsWithStar (parse (RouteRecognizer.path state))
        then originalPath +:+ "/" else originalPath in
      Some (findHandler state originalPath queryParams)
  end.

End RouteRecognizer.

(** ** The WHATWG [URL] object, as far as the dispatcher reads it

    [new URL(s)] for [scheme://authority/path?query#fragment]: [pathname]
    ends before the first [?] or [#] that follows the authority and is
    ["/"] when nothing is there; [search] is the query with its question
    mark. Anything without [://] is an invalid URL. Normalisation of the
    path (dot segments, percent-encoding) is not modelled. *)

Module URL.

Record t := { href : string; pathname : string; search : string }.

(** The text before the first character satisfying [stop], and the
    text from that character on. *)
Fixpoint break (stop : ascii → bool) (s : string) : string * string :=
  match s with
  | EmptyString => (EmptyString, EmptyString)
  | String c s' =>
      if stop c then (EmptyString, s)
      else let '(w, rest) := break stop s' in (String c w, rest)
  end.

Definition isDelimiter (c : ascii) : bool :=
  Ascii.eqb c "/" || Ascii.eqb c "?" || Ascii.eqb c "#".

Definition isQueryOrFragment (c : ascii) : bool :=
  Ascii.eqb c "?" || Ascii.eqb c "#".

(** The text after the first [://], when the scheme before it is not
    empty and holds no delimiter. *)
Fixpoint afterScheme (s : string) : option string :=
  match s with
  | EmptyString => None
  | String c s' =>
      if isDelimiter c || Ascii.eqb c ":" then None
      else if String.prefix "://" s' then Some (JS.substringFrom 3 s')
      else afterScheme s'
  end.

Definition parse (s : string) : option t :=
  rest ← afterScheme s;
  let '(_, rest) := break isDelimiter rest in
  let '(path, rest) := break isQueryOrFragment rest in
  let '(query, _) := break (λ c, Ascii.eqb c "#") rest in
  Some {| href := s;
          pathname := match path with EmptyString => "/" | _ => path end;
          search := match query with
                    | String _ EmptyString => EmptyString
                    | _ => query
                    end |}.

End URL.

(** ** The [PlaywrightConfig] instance *)

(** The fields of the class. [router] is the object holding one
    recognizer per verb, [slots] the per-verb registration functions
    ([get], [post], ..., [del]) currently assigned on the instance, each
    recorded by the verb it registers under, and [playwrightHandlerDefined]
    tells whether the [playwrightHandler] closure has been created. The
    fields [timing] and [mirageConfig] are never read or written and are
    left out. *)
Record PlaywrightConfig := {
  urlPrefix : option string;
  namespace : option string;
  interceptUrlPattern : string;
  page : option Page.t;
  mirageServer : option MirageServer.t;
  router : gmap string RouteRecognizer.t;
  playwrightHandlerDefined : bool;
  passthroughChecks : list (PlaywrightRequest.t → bool);
  slots : gmap string string
}.

(** The instance right after construction (the field initialisers). *)
Definition newPlaywrightConfig : PlaywrightConfig := {|
  urlPrefix := None;
  namespace := None;
  interceptUrlPattern := "**";
  page := None;
  mirageServer := None;
  router := ∅;
  playwrightHandlerDefined := false;
  passthroughChecks := [];
  slots := ∅
|}.

(** Results of the methods: a value, or a thrown error with its message. *)
Inductive Result (A : Type) :=
| Ok (value : A)
| Throw (message : string).
Arguments Ok {A} value.
Arguments Throw {A} message.

(** Methods run on the mutable instance; a throw keeps the assignments
    made before it. *)
Definition M (A : Type) : Type := PlaywrightConfig → Result A * PlaywrightConfig.

#[global] Instance M_ret : MRet M := λ A a t, (Ok a, t).

#[global] Instance M_bind : MBind M := λ A B f m t,
  match m t with
  | (Ok a, t') => f a t'
  | (Throw e, t') => (Throw e, t')
  end.

Definition getThis : M PlaywrightConfig := λ t, (Ok t, t).
Definition throw {A} (message : string) : M A := λ t, (Throw message, t).
Definition assign (f : PlaywrightConfig → PlaywrightConfig) : M unit :=
  λ t, (Ok (), f t).

(** [l.forEach(f)] and [for (const x of l) f(x)] *)
Fixpoint forEach {A} (f : A → M unit) (l : list A) : M unit :=
  match l with
  | [] => mret ()
  | x :: l' => f x;; forEach f l'
  end.

Definition set_urlPrefix (v : option string) (t : PlaywrightConfig) :=
  {| urlPrefix := v; namespace := namespace t;
     interceptUrlPattern := interceptUrlPattern t; page := page t;
     mirageServer := mirageServer t; router := router t;
     playwrightHandlerDefined := playwrightHandlerDefined t;
     passthroughChecks := passthroughChecks t; slots := slots t |}.

Definition set_namespace (v : option string) (t : PlaywrightConfig) :=
  {| urlPrefix := urlPrefix t; namespace := v;
     interceptUrlPattern := interceptUrlPattern t; page := page t;
     mirageServer := mirageServer t; router := router t;
     playwrightHandlerDefined := playwrightHandlerDefined t;
     passthroughChecks := passthroughChecks t; slots := slots t |}.

Definition set_interceptUrlPattern (v : string) (t : PlaywrightConfig) :=
  {| urlPrefix := urlPrefix t; namespace := namespace t;
     interceptUrlPattern := v; page := page t;
     mirageServer := mirageServer t; router := router t;
     playwrightHandlerDefined := playwrightHandlerDefined t;
     passthroughChecks := passthroughChecks t; slots := slots t |}.

Definition set_page (v : option Page.t) (t : PlaywrightConfig) :=
  {| urlPrefix := urlPrefix t; namespace := namespace t;
     interceptUrlPattern := interceptUrlPattern t; page := v;
     mirageServer := mirageServer t; router := router t;
     playwrightHandlerDefined := playwrightHandlerDefined t;
     passthroughChecks := passthroughChecks t; slots := slots t |}.

Definition set_mirageServer (v : option MirageServer.t) (t : PlaywrightConfig) :=
  {| urlPrefix := urlPrefix t; namespace := namespace t;
     interceptUrlPattern := interceptUrlPattern t; page := page t;
     mirageServer := v; router := router t;
     playwrightHandlerDefined := playwrightHandlerDefined t;
     passthroughChecks := passthroughChecks t; slots := slots t |}.

Definition set_router (v : gmap string RouteRecognizer.t) (t : PlaywrightConfig) :=
  {| urlPrefix := urlPrefix t; namespace := namespace t;
     interceptUrlPattern := interceptUrlPattern t; page := page t;
     mirageServer := mirageServer t; router := v;
     playwrightHandlerDefined := playwrightHandlerDefined t;
     passthroughChecks := passthroughChecks t; slots := slots t |}.

Definition set_playwrightHandlerDefined (v : bool) (t : PlaywrightConfig) :=
  {| urlPrefix := urlPrefix t; namespace := namespace t;
     interceptUrlPattern := interceptUrlPattern t; page := page t;
     mirageServer := mirageServer t; router := router t;
     playwrightHandlerDefined := v;
     passthroughChecks := passthroughChecks t; slots := slots t |}.

Definition set_passthroughChecks (v : list (PlaywrightRequest.t → bool))
    (t : PlaywrightConfig) :=
  {| urlPrefix := urlPrefix t; namespace := namespace t;
     interceptUrlPattern := interceptUrlPattern t; page := page t;
     mirageServer := mirageServer t; router := router t;
     playwrightHandlerDefined := playwrightHandlerDefined t;
     passthroughChecks := v; slots := slots t |}.

Definition set_slots (v : gmap string string) (t : PlaywrightConfig) :=
  {| urlPrefix := urlPrefix t; namespace := namespace t;
     interceptUrlPattern := interceptUrlPattern t; page := page t;
     mirageServer := mirageServer t; router := router t;
     playwrightHandlerDefined := playwrightHandlerDefined t;
     passthroughChecks := passthroughChecks t; slots := v |}.

(** ** Route arguments *)

Definition defaultRouteOptions : Object :=
  [("coalesce"%string, PBoolean false); ("timing"%string, PUndefined)].

(** [Object.keys(o)] *)
Definition keys (o : Object) : list string := o.*1.

(** [isOption(option)] *)
Definition isOption (option : JSValue) : bool :=
  match option with
  | VObject o =>
      let allOptions := keys defaultRouteOptions in
      existsb (λ key, bool_decide (key ∈ allOptions)) (keys o)
  | _ => false
  end.

(** One property assignment of an object spread: an existing key keeps
    its place and takes the new value, a new key goes last. *)
Fixpoint setProperty (key : string) (v : Primitive) (o : Object) : Object :=
  match o with
  | [] => [(key, v)]
  | (k, w) :: o' =>
      if String.eqb k key then (k, v) :: o' else (k, w) :: setProperty key v o'
  end.

(** [{ ...a, ...b }] *)
Definition spread (a b : Object) : Object :=
  foldl (λ o kv, setProperty kv.1 kv.2 o) a b.

(** [extractRouteArguments(args)]: the triple [[handler, code, options]]. *)
Definition extractRouteArguments (args : list JSValue)
    : JSValue * option Z * Object :=
  foldl (λ result arg,
           let '(r0, r1, r2) := result in
           if isOption arg then
             match arg with
             | VObject o => (r0, r1, spread defaultRouteOptions o)
             | _ => result
             end
           else match arg with
                | VNumber n => (r0, Some n, r2)
                | _ => (arg, r1, r2)
                end)
        (VUndefined, None, []) args.

(** ** Composer configuration and path composer *)

(** [config(mirageConfig)] *)
Definition config (mirageConfig : ServerConfig.t) : M unit :=
  t ← getThis;
  assign (set_urlPrefix
            (JS.or (JS.or (urlPrefix t) (ServerConfig.urlPrefix mirageConfig))
                   (Some EmptyString)));;
  t ← getThis;
  assign (set_namespace
            (JS.or (JS.or (namespace t) (ServerConfig.namespace mirageConfig))
                   (Some EmptyString))).

(** The namespace chosen when both [urlPrefix] and [namespace] are set:
    four independent [if] statements, each assigning [namespace]. *)
Definition namespaceWithPrefix (ns : string) : string :=
  let len := String.length ns in
  let namespace := EmptyString in
  let namespace :=
    if JS.startsWithSlash ns && JS.endsWithSlash ns
    then JS.substringFrom 1 (JS.substring 0 (len - 1) ns) else namespace in
  let namespace :=
    if JS.startsWithSlash ns && negb (JS.endsWithSlash ns)
    then JS.substringFrom 1 ns else namespace in
  let namespace :=
    if negb (JS.startsWithSlash ns) && JS.endsWithSlash ns
    then JS.substring 0 (len - 1) ns else namespace in
  let namespace :=
    if negb (JS.startsWithSlash ns) && negb (JS.endsWithSlash ns)
    then ns else namespace in
  namespace.

(** The namespace chosen when [namespace] is set and [urlPrefix] is not. *)
Definition namespaceWithoutPrefix (ns : string) : string :=
  let len := String.length ns in
  let namespace := EmptyString in
  let namespace :=
    if JS.startsWithSlash ns && JS.endsWithSlash ns
    then JS.substring 0 (len - 1) ns else namespace in
  let namespace :=
    if JS.startsWithSlash ns && negb (JS.endsWithSlash ns)
    then ns else namespace in
  let namespace :=
    if negb (JS.startsWithSlash ns) && JS.endsWithSlash ns
    then "/" +:+ JS.substring 0 (len - 1) ns else namespace in
  let namespace :=
    if negb (JS.startsWithSlash ns) && negb (JS.endsWithSlash ns)
    then "/" +:+ ns else namespace in
  namespace.

(** [_getFullPath(path)] *)
Definition _getFullPath (this : PlaywrightConfig) (path : string) : string :=
  let path := if JS.startsWithSlash path then JS.substringFrom 1 path else path in
  let fullPath := EmptyString in
  let urlPrefix' :=
    if JS.truthy (urlPrefix this) then JS.trim (default EmptyString (urlPrefix this))
    else EmptyString in
  let thisNamespace := default EmptyString (namespace this) in
  let namespace' := EmptyString in
  let namespace' :=
    if JS.truthy (urlPrefix this) && JS.truthy (namespace this)
    then namespaceWithPrefix thisNamespace else namespace' in
  let namespace' :=
    if JS.truthy (namespace this) && negb (JS.truthy (urlPrefix this))
    then namespaceWithoutPrefix thisNamespace else namespace' in
  let namespace' :=
    if negb (JS.truthy (namespace this)) then EmptyString else namespace' in
  if JS.isAbsoluteUrl path then fullPath +:+ path
  else
    let fullPath :=
      if Nat.ltb 0 (String.length urlPrefix') then
        fullPath +:+ (if JS.endsWithSlash urlPrefix' then urlPrefix'
                      else urlPrefix' +:+ "/")
      else fullPath in
    let fullPath := fullPath +:+ namespace' in
    let fullPath :=
      if negb (JS.endsWithSlash fullPath) then fullPath +:+ "/" else fullPath in
    let fullPath := fullPath +:+ path in
    if negb (JS.isAbsoluteUrl fullPath)
    then JS.collapseSlashes ("/" +:+ fullPath)
    else fullPath.

(** ** Route registration *)

(** [this.router[verb].add([route])]; reading [add] from a missing
    recognizer is a [TypeError]. The verbs that reach this call have the
    declared type [HTTPVerb], whose names [Object.prototype] does not
    have, so that a missing table reads as [undefined] here. *)
Definition routerAdd (verb : string) (route : RouteRecognizer.Route) : M unit :=
  t ← getThis;
  match router t !! verb with
  | Some recognizer =>
      assign (set_router (<[verb := RouteRecognizer.add route recognizer]> (router t)))
  | None => throw "TypeError: Cannot read properties of undefined (reading 'add')"
  end.

(** The function that [create] assigns to [this[verb]]. *)
Definition register (verb : string) (path : string) (args : list JSValue) : M unit :=
  let '(rawHandler, customizedCode, options) := extractRouteArguments args in
  t ← getThis;
  match mirageServer t with
  | None => throw "Lost the mirageServer"
  | Some server =>
      let handler :=
        MirageServer.registerRouteHandler server verb path rawHandler
          customizedCode options in
      let fullPath := _getFullPath t path in
      routerAdd verb {| RouteRecognizer.path := fullPath;
                        RouteRecognizer.handler := mirageHandler handler |}
  end.

(** A call [this.get(path, ...args)], [this.del(path, ...args)], ...,
    for [slot] one of the eight optional fields [get], [post], [put],
    [delete], [del], [patch], [head] and [options]; the methods of the
    class are not called through it. *)
Definition call (slot : string) (path : string) (args : list JSValue) : M unit :=
  t ← getThis;
  match slots t !! slot with
  | Some verb => register verb path args
  | None => throw ("TypeError: this." +:+ slot +:+ " is not a function")
  end.

(** The arguments [passthrough] can meet at run time: strings, an array
    of verbs, and (outside its declared parameter type) functions. *)
Inductive PassthroughArg :=
| ArgString (path : string)
| ArgArray (verbs : list string)
| ArgFunction (check : PlaywrightRequest.t → bool).

Definition defaultVerbs : list string :=
  ["get"; "post"; "put"; "delete"; "patch"; "options"; "head"]%string.

(** The loop [for (const arg of args) if (typeof arg === "string")
    paths.push(arg)]. *)
Definition pushStrings (paths args : list PassthroughArg) : list PassthroughArg :=
  foldl (λ paths arg,
           match arg with
           | ArgString _ => paths ++ [arg]
           | _ => paths
           end) paths args.

(** [passthrough(...args)]. [paths] receives the two default strings or
    the string arguments, nothing else, yet the loop over it still asks
    whether an element is a function. *)
Definition passthrough (args : list PassthroughArg) : M unit :=
  let verbs := defaultVerbs in
  let lastArg := last args in
  let paths : list PassthroughArg := [] in
  let '(paths, verbs) :=
    if Nat.eqb (length args) 0 then ([ArgString "/**"; ArgString "/"], verbs)
    else match lastArg with
         | Some (ArgArray lastArg) => (paths, lastArg)
         | _ => (paths, verbs)
         end in
  let paths := pushStrings paths args in
  forEach (λ path,
             match path with
             | ArgFunction check =>
                 t ← getThis;
                 assign (set_passthroughChecks (passthroughChecks t ++ [check]))
             | ArgString path =>
                 t ← getThis;
                 let fullPath := _getFullPath t path in
                 forEach (λ verb,
                            routerAdd verb
                              {| RouteRecognizer.path := fullPath;
                                 RouteRecognizer.handler := playwrightPassthroughHandler |})
                         verbs
             | ArgArray _ =>
                 (* not reached: an array is never pushed onto [paths] *)
                 throw "TypeError"
             end) paths.

(** ** The dispatcher *)

(** What a dispatch does to the outside world, in order: console
    output, the call of the matched handler with its normalized request,
    [route.continue()] and [route.fulfill(...)]. *)
Inductive Effect :=
| ConsoleLog (message : string)
| HandlerCall (request : MirageRequest)
| RouteContinue
| RouteFulfill (response : MirageRouteHandlerResponse).

(** How the asynchronous dispatcher ends: its promise resolves, it is
    rejected with an error, or it stays suspended on the handler. *)
Inductive Completion :=
| Returned
| Thrown (message : string)
| Suspended.

(** [this.mirageServer?.shouldLog()] *)
Definition shouldLog (t : PlaywrightConfig) : bool :=
  match mirageServer t with
  | Some server => MirageServer.shouldLog server
  | None => false
  end.

(** The body of [playwrightPassthroughHandler]. *)
Definition runPassthroughHandler (t : PlaywrightConfig) (request : PlaywrightRequest.t)
    : Completion * list Effect :=
  let verb := PlaywrightRequest.method request in
  let url := PlaywrightRequest.url request in
  (Returned,
   (if shouldLog t
    then [ConsoleLog ("Mirage: Passthrough request for " +:+ JS.toUpperCase verb
                      +:+ " " +:+ url)]
    else [])
   ++ [RouteContinue]).

(** The names every plain object inherits from [Object.prototype]. *)
Definition objectPrototype : list string :=
  ["constructor"; "__defineGetter__"; "__defineSetter__"; "hasOwnProperty";
   "__lookupGetter__"; "__lookupSetter__"; "isPrototypeOf";
   "propertyIsEnumerable"; "toString"; "valueOf"; "__proto__";
   "toLocaleString"]%string.

(** What reading a property of the plain object [this.router] gives: the
    recognizer stored under the key, a value inherited from
    [Object.prototype] (none of which has a [recognize] method), or
    [undefined]. *)
Inductive RouterProperty :=
| OwnRecognizer (recognizer : RouteRecognizer.t)
| InheritedValue
| Undefined.

(** [this.router[key]] *)
Definition routerGet (t : PlaywrightConfig) (key : string) : RouterProperty :=
  match router t !! key with
  | Some recognizer => OwnRecognizer recognizer
  | None => if bool_decide (key ∈ objectPrototype) then InheritedValue else Undefined
  end.

(** The error of calling the missing [recognize] of an inherited value;
    the wording is the engine's. *)
Definition recognizeIsNotAFunction : string :=
  "TypeError: this.router[method.toLowerCase(...)]?.recognize is not a function".

Section Dispatcher.

(** The [recognize] method of the route recognizer. *)
Variable recognize : RouteRecognizer.t → string → option RouteRecognizer.Results.

(** The value of [this.router[method.toLowerCase()]?.recognize(url.pathname)]
    when the expression has one: the answer of the verb's own recognizer,
    or [undefined] where [?.] meets [undefined]. On an inherited value the
    call throws; the dispatcher deals with that case first. *)
Definition matchesOf (t : PlaywrightConfig) (method pathname : string)
    : option RouteRecognizer.Results :=
  match routerGet t (JS.toLowerCase method) with
  | OwnRecognizer recognizer => recognize recognizer pathname
  | _ => None
  end.

(** [matches ? matches[0] : null] *)
Definition matchOf (matches : option RouteRecognizer.Results)
    : option RouteRecognizer.Result :=
  matches ≫= λ m, head (RouteRecognizer.results m).

(** The closure that [create] stores in [this.playwrightHandler]. *)
Definition playwrightHandler (t : PlaywrightConfig) (request : PlaywrightRequest.t)
    : Completion * list Effect :=
  let method := PlaywrightRequest.method request in
  match URL.parse (PlaywrightRequest.url request) with
  | None => (Thrown "TypeError: Invalid URL", [])
  | Some url =>
      let requestHeaders := PlaywrightRequest.allHeaders request in
      let postData := PlaywrightRequest.postData request in
      match routerGet t (JS.toLowerCase method) with
      | InheritedValue => (Thrown recognizeIsNotAFunction, [])
      | _ =>
      let matches := matchesOf t method (URL.pathname url) in
      match matches, matchOf matches with
      | Some matches, Some match_ =>
          let handler := RouteRecognizer.result_handler match_ in
          let params := RouteRecognizer.result_params match_ in
          let queryParams := RouteRecognizer.results_queryParams matches in
          match handler with
          | playwrightPassthroughHandler => runPassthroughHandler t request
          | mirageHandler handler =>
              let mirageRequest :=
                {| requestBody := default EmptyString postData;
                   requestHeaders := requestHeaders;
                   url := URL.pathname url;
                   params := params;
                   queryParams := queryParams |} in
              match handler mirageRequest with
              | Resolved response =>
                  (Returned,
                   [HandlerCall mirageRequest]
                   ++ (if shouldLog t
                       then [ConsoleLog ("Mirage: [" +:+ pretty (status response)
                                         +:+ "] " +:+ JS.toUpperCase method
                                         +:+ " " +:+ URL.href url)]
                       else [])
                   ++ [RouteFulfill response])
              | Rejected reason => (Thrown reason, [HandlerCall mirageRequest])
              | Pending => (Suspended, [HandlerCall mirageRequest])
              end
          end
      | _, _ =>
          (Thrown ("No Mirage route registered for " +:+ URL.pathname url), [])
      end
      end
  end.

End Dispatcher.

(** ** Lifecycle *)

(** The verbs of [create], each with its alias when it has one. *)
Definition verbsWithAlias : list (string * option string) :=
  [("get", None); ("post", None); ("put", None); ("delete", Some "del");
   ("patch", None); ("head", None); ("options", None)]%string.

(** [this[slot] = f; mirageServer[slot] = f] for the registration
    function [f] of [verb]. *)
Definition assignSlot (slot verb : string) : M unit :=
  t ← getThis;
  assign (set_slots (<[slot := verb]> (slots t)));;
  t ← getThis;
  assign (set_mirageServer (MirageServer.assign slot verb <$> mirageServer t)).

(** [create(mirageServer, config)] *)
Definition create (server : MirageServer.t) (mirageConfig : ServerConfig.t) : M unit :=
  assign (set_mirageServer (Some server));;
  t ← getThis;
  assign (set_interceptUrlPattern
            (default (interceptUrlPattern t)
                     (ServerConfig.interceptUrlPattern mirageConfig)));;
  assign (set_page (ServerConfig.page mirageConfig));;
  t ← getThis;
  match page t with
  | None => throw "A Playwright Page must be passed in the mirageConfig"
  | Some _ =>
      config mirageConfig;;
      forEach (λ '(verb, alias),
                 t ← getThis;
                 assign (set_router (<[verb := RouteRecognizer.new]> (router t)));;
                 assignSlot verb verb;;
                 match alias with
                 | Some alias => assignSlot alias verb
                 | None => mret ()
                 end)
              verbsWithAlias;;
      assign (set_playwrightHandlerDefined true);;
      t ← getThis;
      assign (set_page (Page.route (interceptUrlPattern t) <$> page t))
  end.

(** [start()] *)
Definition start : M unit := mret ().

(** [shutdown()] *)
Definition shutdown : M unit :=
  t ← getThis;
  match page t with
  | Some p =>
      if playwrightHandlerDefined t
      then assign (set_page (Some (Page.unroute (interceptUrlPattern t) p)))
      else mret ()
  | None => mret ()
  end.

(** ** A scenario: one movie route

    A Mirage server whose handlers answer 200 with the [sort] query
    parameter they were given as body, a page, and the instance obtained
    by [create] followed by [this.get("/movies/:id", handler)]. *)

Module Movies.

Definition handler : RouteHandler := λ request,
  Resolved {| status := 200;
              headers := None;
              body := queryParams request !! "sort"%string |}.

Definition server : MirageServer.t :=
  {| MirageServer.registerRouteHandler := λ _ _ _ _ _, handler;
     MirageServer.shouldLog := false;
     MirageServer.slots := ∅ |}.

Definition mirageConfig : ServerConfig.t :=
  {| ServerConfig.page := Some {| Page.routes := [] |};
     ServerConfig.interceptUrlPattern := None;
     ServerConfig.urlPrefix := None;
     ServerConfig.namespace := None |}.

Definition created : PlaywrightConfig :=
  (create server mirageConfig newPlaywrightConfig).2.

Definition instance : PlaywrightConfig :=
  (call "get" "/movies/:id" [VFunction 0] created).2.

Definition request (method url : string) : PlaywrightRequest.t :=
  {| PlaywrightRequest.method := method;
     PlaywrightRequest.url := url;
     PlaywrightRequest.allHeaders := ∅;
     PlaywrightRequest.postData := None |}.

Definition check : PlaywrightRequest.t → bool := λ _, true.

(** The instance after a further [passthrough()]. *)
Definition forwarding : PlaywrightConfig := (passthrough [] instance).2.

(** The route table holding the single route [/movies/:id]. *)
Definition table (handler : RouteHandler) : RouteRecognizer.t :=
  [ {| RouteRecognizer.path := "/movies/:id";
       RouteRecognizer.handler := mirageHandler handler |} ].

(** A [GET] of [/movies/42?sort=asc] on [localhost]. *)
Definition get (allHeaders : gmap string string) (postData : option string)
    : PlaywrightRequest.t :=
  {| PlaywrightRequest.method := "GET";
     PlaywrightRequest.url := "http://localhost/movies/42?sort=asc";
     PlaywrightRequest.allHeaders := allHeaders;
     PlaywrightRequest.postData := postData |}.

End Movies.

(** ** Vocabulary of the statements *)

(** An instance with the given composer configuration. *)
Definition configured (prefix ns : string) (t : PlaywrightConfig) : PlaywrightConfig :=
  set_namespace (Some ns) (set_urlPrefix (Some prefix) t).

(** [typeof arg === "string"] *)
Definition isString (arg : PassthroughArg) : bool :=
  match arg with ArgString _ => true | _ => false end.

(** The route tables after one [add] of [route] for each of [verbs]. *)
Definition addForVerbs (route : RouteRecognizer.Route) (verbs : list string)
    (m : gmap string RouteRecognizer.t) : gmap string RouteRecognizer.t :=
  foldl (λ m verb, alter (RouteRecognizer.add route) verb m) m verbs.

(** The passthrough route for a path composed on instance [t]. *)
Definition passthroughRoute (t : PlaywrightConfig) (path : string) : RouteRecognizer.Route :=
  {| RouteRecognizer.path := _getFullPath t path;
     RouteRecognizer.handler := playwrightPassthroughHandler |}.

(** Whether the character [c] occurs in [s]. *)
Fixpoint occurs (c : ascii) (s : string) : bool :=
  match s with
  | EmptyString => false
  | String d s' => Ascii.eqb d c || occurs c s'
  end.

(** Whether two slashes stand next to each other somewhere in [s]. *)
Fixpoint doubleSlash (s : string) : bool :=
  match s with
  | EmptyString => false
  | String c s' =>
      (Ascii.eqb c JS.slash && JS.startsWithSlash s') || doubleSlash s'
  end.

(** [o[key]] for an own property of a plain object. *)
Fixpoint getProperty (key : string) (o : Object) : option Primitive :=
  match o with
  | [] => None
  | (k, v) :: o' => if String.eqb k key then Some v else getProperty key o'
  end.

(** [typeof arg === "number"], with the number. *)
Definition numberOf (arg : JSValue) : option Z :=
  match arg with VNumber n => Some n | _ => None end.

(** The properties of an argument that [isOption] accepts. *)
Definition optionsOf (arg : JSValue) : option Object :=
  match arg with
  | VObject o => if isOption arg then Some o else None
  | _ => None
  end.

(** The arguments that [extractRouteArguments] takes as the handler:
    neither an option object nor a number. *)
Definition isRawHandler (arg : JSValue) : bool :=
  negb (isOption arg) && negb (bool_decide (is_Some (numberOf arg))).

(** [typeof arg === "string"], with the string. *)
Definition stringOf (arg : PassthroughArg) : option string :=
  match arg with ArgString path => Some path | _ => None end.

(** The verbs [passthrough] registers under: the last argument when it
    is an array, the seven defaults otherwise. *)
Definition selectedVerbs (args : list PassthroughArg) : list string :=
  match last args with
  | Some (ArgArray verbs) => verbs
  | _ => defaultVerbs
  end.

(** The paths [passthrough] registers: the two defaults for an empty
    argument list, the string arguments otherwise. *)
Definition selectedPaths (args : list PassthroughArg) : list string :=
  match args with
  | [] => ["/**"; "/"]%string
  | _ => omap stringOf args
  end.

(** The body of the loop over [paths] in [passthrough], for the chosen
    verbs. *)
Definition registerPassthrough (verbs : list string) (path : PassthroughArg) : M unit :=
  match path with
  | ArgFunction check =>
      t ← getThis;
      assign (set_passthroughChecks (passthroughChecks t ++ [check]))
  | ArgString path =>
      t ← getThis;
      let fullPath := _getFullPath t path in
      forEach (λ verb,
                 routerAdd verb
                   {| RouteRecognizer.path := fullPath;
                      RouteRecognizer.handler := playwrightPassthroughHandler |})
              verbs
  | ArgArray _ => throw "TypeError"
  end.

(** The two instructions to the interception facility. *)
Definition isRouteAction (effect : Effect) : bool :=
  match effect with
  | RouteContinue | RouteFulfill _ => true
  | _ => false
  end.

(** The normalized request the dispatcher builds for a match. *)
Definition mirageRequestOf (request : PlaywrightRequest.t) (url : URL.t)
    (matches : RouteRecognizer.Results) (first : RouteRecognizer.Result)
    : MirageRequest :=
  {| requestBody := default EmptyString (PlaywrightRequest.postData request);
     requestHeaders := PlaywrightRequest.allHeaders request;
     url := URL.pathname url;
     params := RouteRecognizer.result_params first;
     queryParams := RouteRecognizer.results_queryParams matches |}.

(** The 256 characters. *)
Definition allChars : list ascii := ascii_of_nat <$> seq 0 256.

(** Further instances for the examples: one whose [get] table holds a
    single route with the given handler, and two handlers that do not
    answer. *)
Module Failing.

Definition rejecting : RouteHandler := λ _, Rejected "no such movie".

Definition silent : RouteHandler := λ _, Pending.

Definition instance (handler : RouteHandler) : PlaywrightConfig :=
  set_router {[ "get"%string := Movies.table handler ]} newPlaywrightConfig.

End Failing.

(** The state after [assignSlot slot verb]. *)
Definition assignSlotTo (slot verb : string) (t : PlaywrightConfig) : PlaywrightConfig :=
  let t := set_slots (<[slot := verb]> (slots t)) t in
  set_mirageServer (MirageServer.assign slot verb <$> mirageServer t) t.

(** The state after one round of the loop over the verbs in [create]. *)
Definition installVerb (entry : string * option string) (t : PlaywrightConfig)
    : PlaywrightConfig :=
  let t := set_router (<[entry.1 := RouteRecognizer.new]> (router t)) t in
  let t := assignSlotTo entry.1 entry.1 t in
  match entry.2 with
  | Some alias => assignSlotTo alias entry.1 t
  | None => t
  end.

(** The state in which [create] returns when the configuration has a
    page. *)
Definition created (server : MirageServer.t) (c : ServerConfig.t)
    (t : PlaywrightConfig) : PlaywrightConfig :=
  let t := set_mirageServer (Some server) t in
  let t := set_interceptUrlPattern
             (default (interceptUrlPattern t) (ServerConfig.interceptUrlPattern c)) t in
  let t := set_page (ServerConfig.page c) t in
  let t := (config c t).2 in
  let t := foldl (λ t entry, installVerb entry t) t verbsWithAlias in
  let t := set_playwrightHandlerDefined true t in
  set_page (Page.route (interceptUrlPattern t) <$> page t) t.

(** The fields that hold the registration functions once [create] has
    run. *)
Definition registrationFunctions : list string :=
  ["get"; "post"; "put"; "delete"; "del"; "patch"; "head"; "options"]%string.



(** [sortSolutions] does not put [a] after [b]. *)
Definition ranksBefore (a b : RouteRecognizer.Route) : Prop :=
  (RouteRecognizer.compare (RouteRecognizer.parse (RouteRecognizer.path a))
                           (RouteRecognizer.parse (RouteRecognizer.path b)) <= 0)%Z.

(** The routes that no route of [later] replaces. *)
Definition notReplacedBy (later : list RouteRecognizer.Route)
    (route : RouteRecognizer.Route) : Prop :=
  existsb (λ l, RouteRecognizer.sameState (RouteRecognizer.path route)
                                          (RouteRecognizer.path l)) later = false.

#[global] Instance ranksBefore_dec (a b : RouteRecognizer.Route) : Decision (ranksBefore a b).
Proof. unfold ranksBefore. apply _. Defined.

#[global] Instance notReplacedBy_dec (later : list RouteRecognizer.Route)
    (route : RouteRecognizer.Route) : Decision (notReplacedBy later route).
Proof. unfold notReplacedBy. apply _. Defined.

(** A scenario with a mock route for the root path: [create], then
    [this.get("/", handler)]; [forwarding] is the instance after a further
    [passthrough()]. *)
Module Root.

Definition instance : PlaywrightConfig :=
  (call "get" "/" [VFunction 0] Movies.created).2.

Definition forwarding : PlaywrightConfig := (passthrough [] instance).2.

Definition get : PlaywrightRequest.t := Movies.request "GET" "http://localhost/".

End Root.

(** * Properties *)

(** ** Path composer: the correctness table *)

(** C4. On any instance whose composer configuration is
    [(urlPrefix, namespace)], [_getFullPath("a")] is ["/a"] for
    [("", "")], ["http://h:1/api/a"] for [("http://h:1", "/api/")],
    ["/api/a"] for [("", "/api")] and ["/api/a"] for [("", "api/")]. *)
Theorem getFullPath_table (t : PlaywrightConfig) :
  _getFullPath (configured "" "" t) "a" = "/a"%string
  ∧ _getFullPath (configured "http://h:1" "/api/" t) "a" = "http://h:1/api/a"%string
  ∧ _getFullPath (configured "" "/api" t) "a" = "/api/a"%string
  ∧ _getFullPath (configured "" "api/" t) "a" = "/api/a"%string.
Proof. repeat split; reflexivity. Qed.

(** ** Composer configuration *)

Lemma or_truthy (a b : option string) : JS.truthy a = true → JS.or a b = a.
Proof. unfold JS.or. by intros ->. Qed.

Lemma config_result (c : ServerConfig.t) (t : PlaywrightConfig) :
  config c t =
  (Ok (),
   set_namespace
     (JS.or (JS.or (namespace t) (ServerConfig.namespace c)) (Some EmptyString))
     (set_urlPrefix
        (JS.or (JS.or (urlPrefix t) (ServerConfig.urlPrefix c)) (Some EmptyString))
        t)).
Proof. reflexivity. Qed.

(** C8. A call of [config] leaves [urlPrefix] (respectively [namespace])
    as it is when that field already holds a non-empty string; so a field
    that the call changes was empty or unset before. The call itself
    always returns normally. *)
Theorem config_set_once (c : ServerConfig.t) (t : PlaywrightConfig) :
  (config c t).1 = Ok ()
  ∧ (JS.truthy (urlPrefix t) = true → urlPrefix (config c t).2 = urlPrefix t)
  ∧ (JS.truthy (namespace t) = true → namespace (config c t).2 = namespace t)
  ∧ (urlPrefix (config c t).2 ≠ urlPrefix t → JS.truthy (urlPrefix t) = false)
  ∧ (namespace (config c t).2 ≠ namespace t → JS.truthy (namespace t) = false).
Proof.
  rewrite config_result. cbn [fst snd].
  assert (Hu : JS.truthy (urlPrefix t) = true →
               JS.or (JS.or (urlPrefix t) (ServerConfig.urlPrefix c))
                     (Some EmptyString) = urlPrefix t).
  { intros H. rewrite (or_truthy _ _ H). by apply or_truthy. }
  assert (Hn : JS.truthy (namespace t) = true →
               JS.or (JS.or (namespace t) (ServerConfig.namespace c))
                     (Some EmptyString) = namespace t).
  { intros H. rewrite (or_truthy _ _ H). by apply or_truthy. }
  repeat split; cbn; try assumption.
  - intros Hne. destruct (JS.truthy (urlPrefix t)) eqn:E; [|done].
    exfalso. apply Hne. by apply Hu.
  - intros Hne. destruct (JS.truthy (namespace t)) eqn:E; [|done].
    exfalso. apply Hne. by apply Hn.
Qed.

(** A first configuration sets the prefix; a second one with other values
    keeps the prefix and fills in the namespace that was still empty. *)
Lemma config_set_once_witness :
  let c1 := {| ServerConfig.page := None; ServerConfig.interceptUrlPattern := None;
               ServerConfig.urlPrefix := Some "http://h:1"%string;
               ServerConfig.namespace := None |} in
  let c2 := {| ServerConfig.page := None; ServerConfig.interceptUrlPattern := None;
               ServerConfig.urlPrefix := Some "http://other"%string;
               ServerConfig.namespace := Some "/api"%string |} in
  let t := (config c1 newPlaywrightConfig).2 in
  urlPrefix (config c2 t).2 = Some "http://h:1"%string
  ∧ JS.truthy (namespace t) = false
  ∧ namespace (config c2 t).2 = Some "/api"%string.
Proof.
  intros c1 c2 t.
  destruct (config_set_once c2 t) as (_ & Hu & _ & _ & Hn).
  split; [exact (Hu eq_refl) | split; [apply Hn; discriminate | reflexivity]].
Defined.

(** ** [create] without a page *)

(** C9. When the configuration carries no page, [create] throws its
    setup error after having assigned [mirageServer] and
    [interceptUrlPattern] (and [page]) from the arguments: the instance at
    the throw is the old one with exactly these three assignments, so an
    instance that had no server before is not the same afterwards. *)
Theorem create_without_page (server : MirageServer.t) (c : ServerConfig.t)
    (t : PlaywrightConfig) :
  ServerConfig.page c = None →
  create server c t =
    (Throw "A Playwright Page must be passed in the mirageConfig",
     set_page None
       (set_interceptUrlPattern
          (default (interceptUrlPattern t) (ServerConfig.interceptUrlPattern c))
          (set_mirageServer (Some server) t)))
  ∧ mirageServer (create server c t).2 = Some server
  ∧ interceptUrlPattern (create server c t).2 =
      default (interceptUrlPattern t) (ServerConfig.interceptUrlPattern c)
  ∧ (mirageServer t = None → (create server c t).2 ≠ t).
Proof.
  intros Hpage.
  assert (E : create server c t =
    (Throw "A Playwright Page must be passed in the mirageConfig",
     set_page None
       (set_interceptUrlPattern
          (default (interceptUrlPattern t) (ServerConfig.interceptUrlPattern c))
          (set_mirageServer (Some server) t)))).
  { unfold create, mbind, M_bind, assign, getThis, throw.
    cbn. rewrite Hpage. reflexivity. }
  rewrite E. repeat split.
  cbn. intros Hnone Heq. apply (f_equal mirageServer) in Heq. cbn in Heq.
  congruence.
Qed.

Lemma create_without_page_witness :
  let c := {| ServerConfig.page := None;
              ServerConfig.interceptUrlPattern := Some "/api/**"%string;
              ServerConfig.urlPrefix := None; ServerConfig.namespace := None |} in
  (create Movies.server c newPlaywrightConfig).1 =
    Throw "A Playwright Page must be passed in the mirageConfig"
  ∧ interceptUrlPattern (create Movies.server c newPlaywrightConfig).2 = "/api/**"%string
  ∧ (create Movies.server c newPlaywrightConfig).2 ≠ newPlaywrightConfig.
Proof.
  intros c.
  destruct (create_without_page Movies.server c newPlaywrightConfig eq_refl)
    as (E & _ & Hp & Hne).
  split; [by rewrite E | split; [exact Hp | exact (Hne eq_refl)]].
Defined.

(** ** What [create] sets up *)

(** With a page, [create] returns normally and leaves an empty route
    table for each of the seven verbs, which is what [passthrough()] and
    the per-verb functions rely on. *)
Lemma create_tables (server : MirageServer.t) (c : ServerConfig.t)
    (t : PlaywrightConfig) (verb : string) :
  is_Some (ServerConfig.page c) →
  verb ∈ defaultVerbs →
  (create server c t).1 = Ok ()
  ∧ router (create server c t).2 !! verb = Some RouteRecognizer.new.
Proof.
  intros [p Hp] Hin.
  unfold create, config, assignSlot, mbind, M_bind, assign, getThis, mret, M_ret.
  cbn. rewrite Hp. cbn. split; [reflexivity|].
  unfold defaultVerbs in Hin.
  repeat (apply elem_of_cons in Hin as [->|Hin]); [by simplify_map_eq ..|].
  by apply elem_of_nil in Hin.
Qed.

(** ** [passthrough] *)

Lemma pushStrings_filter (args paths : list PassthroughArg) :
  pushStrings paths args = paths ++ filter (λ a, isString a = true) args.
Proof.
  unfold pushStrings. revert paths.
  induction args as [|a args IH]; intros paths; cbn [foldl].
  - by rewrite app_nil_r.
  - rewrite IH. destruct a; cbn; rewrite ?filter_cons; cbn;
      try (destruct (decide _) as [|]; try done);
      by rewrite <-?app_assoc.
Qed.

Lemma pushStrings_no_strings (args : list PassthroughArg) :
  (∀ path, ArgString path ∉ args) → pushStrings [] args = [].
Proof.
  intros Hno. rewrite pushStrings_filter. cbn.
  induction args as [|a args IH]; [done|].
  rewrite filter_cons.
  destruct a as [p| |]; cbn.
  - exfalso. apply (Hno p). left.
  - apply IH. intros p Hp. apply (Hno p). by right.
  - apply IH. intros p Hp. apply (Hno p). by right.
Qed.

(** The paths and verbs that [passthrough] works with. *)
Lemma passthrough_unfold (args : list PassthroughArg) :
  passthrough args =
  let '(paths, verbs) :=
    if Nat.eqb (length args) 0
    then ([ArgString "/**"; ArgString "/"], defaultVerbs)
    else match last args with
         | Some (ArgArray lastArg) => ([], lastArg)
         | _ => ([], defaultVerbs)
         end in
  forEach (λ path,
             match path with
             | ArgFunction check =>
                 t ← getThis;
                 assign (set_passthroughChecks (passthroughChecks t ++ [check]))
             | ArgString path =>
                 t ← getThis;
                 let fullPath := _getFullPath t path in
                 forEach (λ verb,
                            routerAdd verb
                              {| RouteRecognizer.path := fullPath;
                                 RouteRecognizer.handler := playwrightPassthroughHandler |})
                         verbs
             | ArgArray _ => throw "TypeError"
             end) (pushStrings paths args).
Proof.
  unfold passthrough.
  destruct (Nat.eqb (length args) 0); [reflexivity|].
  destruct (last args) as [[| |]|]; reflexivity.
Qed.

(** C10. A call of [passthrough] with at least one argument, none of
    them a string, returns normally and leaves the whole instance as it
    was: no route table and no entry of [passthroughChecks] changes. *)
Theorem passthrough_without_paths (args : list PassthroughArg) (t : PlaywrightConfig) :
  args ≠ [] →
  (∀ path, ArgString path ∉ args) →
  passthrough args t = (Ok (), t).
Proof.
  intros Hne Hno. rewrite passthrough_unfold.
  destruct args as [|a args]; [done|].
  cbn [length Nat.eqb].
  destruct (last (a :: args)) as [[| |]|];
    cbv zeta; rewrite pushStrings_no_strings by done; reflexivity.
Qed.

(** Only an array of verbs is passed, on an instance set up by [create]. *)
Lemma passthrough_without_paths_witness :
  [ArgArray ["get"; "post"]%string] ≠ []
  ∧ (∀ path, ArgString path ∉ [ArgArray ["get"; "post"]%string])
  ∧ passthrough [ArgArray ["get"; "post"]%string] Movies.created
    = (Ok (), Movies.created).
Proof.
  assert (H1 : [ArgArray ["get"; "post"]%string] ≠ []) by discriminate.
  assert (H2 : ∀ path, ArgString path ∉ [ArgArray ["get"; "post"]%string]).
  { intros path Hin. apply list_elem_of_In in Hin. destruct Hin as [Hin|[]].
    discriminate Hin. }
  split; [exact H1 | split; [exact H2 |]].
  exact (passthrough_without_paths _ Movies.created H1 H2).
Defined.

(** Registering routes does not touch [passthroughChecks]. *)
Lemma routerAdd_passthroughChecks verb route (t : PlaywrightConfig) :
  passthroughChecks (routerAdd verb route t).2 = passthroughChecks t.
Proof.
  unfold routerAdd, mbind, M_bind, getThis, assign, throw. cbn.
  by destruct (router t !! verb).
Qed.

Lemma forEach_preserves {A B} (proj : PlaywrightConfig → B) (f : A → M unit)
    (l : list A) :
  (∀ x t, x ∈ l → proj (f x t).2 = proj t) →
  ∀ t, proj (forEach f l t).2 = proj t.
Proof.
  induction l as [|x l IH]; intros Hf t; [done|].
  cbn [forEach]. unfold mbind, M_bind.
  destruct (f x t) as [[[]|e] t'] eqn:E.
  - rewrite IH.
    + change t' with (Ok (), t').2. rewrite <-E. apply Hf. left.
    + intros y u Hy. apply Hf. by right.
  - change t' with (@Throw unit e, t').2. rewrite <-E. apply Hf. left.
Qed.

Lemma pushStrings_strings (paths args : list PassthroughArg) :
  Forall (λ a, isString a = true) paths →
  Forall (λ a, isString a = true) (pushStrings paths args).
Proof.
  intros Hp. rewrite pushStrings_filter. apply Forall_app. split; [done|].
  apply Forall_forall. intros a Ha. by apply list_elem_of_filter in Ha as [? _].
Qed.

(** C6. The list [passthroughChecks] and the branch of [passthrough] that
    pushes a function onto it are there, but the branch is never reached:
    the loop before it collects the string arguments only, so the paths it
    runs over hold no function. Whatever its arguments, a call of
    [passthrough] leaves [passthroughChecks] as it was, and no predicate is
    ever appended. *)
Theorem passthrough_keeps_checks (args : list PassthroughArg) (t : PlaywrightConfig) :
  passthroughChecks (passthrough args t).2 = passthroughChecks t.
Proof.
  rewrite passthrough_unfold.
  assert (H : ∃ paths verbs,
    Forall (λ a, isString a = true) paths ∧
    (if Nat.eqb (length args) 0
     then ([ArgString "/**"; ArgString "/"], defaultVerbs)
     else match last args with
          | Some (ArgArray lastArg) => ([], lastArg)
          | _ => ([], defaultVerbs)
          end) = (paths, verbs)).
  { destruct (Nat.eqb (length args) 0).
    - eexists _, _. split; [|reflexivity]. by repeat constructor.
    - destruct (last args) as [[| |]|]; eexists _, _; (split; [|reflexivity]);
        constructor. }
  destruct H as (paths & verbs & Hstr & ->). cbv zeta.
  apply (forEach_preserves passthroughChecks).
  intros x u Hx.
  pose proof (pushStrings_strings paths args Hstr) as Hall.
  rewrite Forall_forall in Hall. specialize (Hall x Hx).
  destruct x as [p| |]; try discriminate Hall.
  unfold mbind, M_bind, getThis. cbn.
  apply (forEach_preserves passthroughChecks).
  intros verb v _. apply routerAdd_passthroughChecks.
Qed.

(** A predicate passed to [passthrough] is not in [passthroughChecks]
    afterwards, on a fresh instance and on one set up by [create] alike;
    the call returns normally and changes nothing. *)
Lemma passthrough_drops_predicate :
  passthrough [ArgFunction Movies.check] Movies.created = (Ok (), Movies.created)
  ∧ (Movies.check ∉ passthroughChecks
                      (passthrough [ArgFunction Movies.check] Movies.created).2)
  ∧ (Movies.check ∉ passthroughChecks
                      (passthrough [ArgFunction Movies.check] newPlaywrightConfig).2).
Proof.
  split; [reflexivity|].
  split; intros Hin; apply list_elem_of_In in Hin; exact Hin.
Qed.

(** *** The default passthrough *)

Lemma routerAdd_registered verb route recognizer (t : PlaywrightConfig) :
  router t !! verb = Some recognizer →
  routerAdd verb route t =
    (Ok (), set_router (alter (RouteRecognizer.add route) verb (router t)) t).
Proof.
  intros Hv. unfold routerAdd, mbind, M_bind, getThis, assign. cbn.
  rewrite Hv. do 2 f_equal. apply map_eq. intros k.
  rewrite lookup_alter, lookup_insert.
  destruct (decide (verb = k)) as [<-|]; [by rewrite Hv | done].
Qed.

Lemma lookup_addForVerbs route verbs (m : gmap string RouteRecognizer.t) verb :
  NoDup verbs →
  addForVerbs route verbs m !! verb =
    if decide (verb ∈ verbs) then RouteRecognizer.add route <$> m !! verb
    else m !! verb.
Proof.
  unfold addForVerbs. intros Hnd. revert m.
  induction Hnd as [|v verbs Hv Hnd IH]; intros m; cbn [foldl].
  - by rewrite decide_False by apply not_elem_of_nil.
  - rewrite IH, lookup_alter.
    destruct (decide (v = verb)) as [->|Hne].
    + rewrite (decide_True (P := verb ∈ verb :: verbs)) by left.
      by rewrite (decide_False (P := verb ∈ verbs)).
    + destruct (decide (verb ∈ verbs)) as [Hin|Hnin].
      * by rewrite (decide_True (P := verb ∈ v :: verbs)) by (by right).
      * rewrite (decide_False (P := verb ∈ v :: verbs)); [done|].
        intros [->|Hin]%elem_of_cons; done.
Qed.

Lemma forEach_routerAdd route verbs (t : PlaywrightConfig) :
  (∀ verb, verb ∈ verbs → is_Some (router t !! verb)) →
  forEach (λ verb, routerAdd verb route) verbs t =
    (Ok (), set_router (addForVerbs route verbs (router t)) t).
Proof.
  revert t. induction verbs as [|v verbs IH]; intros t Hall.
  - by destruct t.
  - destruct (Hall v) as [r Hr]; [left|].
    cbn [forEach]. unfold mbind, M_bind.
    rewrite (routerAdd_registered _ _ _ _ Hr).
    rewrite IH; [reflexivity|].
    intros verb Hin. cbn. rewrite lookup_alter.
    destruct (Hall verb) as [r' Hr']; [by right|].
    destruct (decide (v = verb)); [rewrite Hr | rewrite Hr']; by eexists.
Qed.



(** ** The dispatcher *)

Section DispatcherProperties.

Variable recognize : RouteRecognizer.t → string → option RouteRecognizer.Results.

(** Reading the table of a verb that has one gives that table. *)
Lemma routerGet_own (t : PlaywrightConfig) (key : string)
    (recognizer : RouteRecognizer.t) :
  router t !! key = Some recognizer → routerGet t key = OwnRecognizer recognizer.
Proof. intros H. unfold routerGet. by rewrite H. Qed.

(** A candidate list comes from the verb's own table. *)
Lemma matchesOf_Some (t : PlaywrightConfig) (method pathname : string)
    (matches : RouteRecognizer.Results) :
  matchesOf recognize t method pathname = Some matches →
  ∃ recognizer,
    router t !! JS.toLowerCase method = Some recognizer
    ∧ routerGet t (JS.toLowerCase method) = OwnRecognizer recognizer
    ∧ recognize recognizer pathname = Some matches.
Proof.
  unfold matchesOf, routerGet.
  destruct (router t !! JS.toLowerCase method) as [recognizer|]; [by eauto|].
  by destruct (bool_decide _).
Qed.

(** Without a candidate list, the dispatcher either fails on an inherited
    property or reports the routing miss. *)
Lemma matchesOf_own (t : PlaywrightConfig) (method pathname : string)
    (recognizer : RouteRecognizer.t) :
  router t !! JS.toLowerCase method = Some recognizer →
  matchesOf recognize t method pathname = recognize recognizer pathname.
Proof. intros H. unfold matchesOf. by rewrite (routerGet_own _ _ _ H). Qed.

(** X26. When the URL of an intercepted request parses, the lower-cased
    verb does not name a property inherited by the router object, and the
    table of the verb is missing or yields no candidate for the pathname,
    the dispatcher throws ['No Mirage route registered for <pathname>'] and
    has no effect at all: no [route.fulfill], no [route.continue], no
    handler call. *)
Theorem dispatch_unmatched (t : PlaywrightConfig) (request : PlaywrightRequest.t)
    (url : URL.t) :
  URL.parse (PlaywrightRequest.url request) = Some url →
  routerGet t (JS.toLowerCase (PlaywrightRequest.method request)) ≠ InheritedValue →
  (∀ recognizer matches,
     router t !! JS.toLowerCase (PlaywrightRequest.method request) = Some recognizer →
     recognize recognizer (URL.pathname url) = Some matches →
     RouteRecognizer.results matches = []) →
  playwrightHandler recognize t request =
    (Thrown ("No Mirage route registered for " +:+ URL.pathname url), []).
Proof.
  intros Hurl Hown Hnone. unfold playwrightHandler. rewrite Hurl.
  unfold matchesOf, matchOf. revert Hown. unfold routerGet.
  destruct (router t !! JS.toLowerCase (PlaywrightRequest.method request))
    as [recognizer|] eqn:Hr; cbn.
  - intros _.
    destruct (recognize recognizer (URL.pathname url)) as [matches|] eqn:Hm;
      cbn; [|reflexivity].
    by rewrite (Hnone recognizer matches eq_refl Hm).
  - by destruct (bool_decide _).
Qed.

(** C2. The router is a plain object, so a request whose lower-cased verb
    names a property of [Object.prototype] (['constructor'], ['__proto__'],
    ...), for which no table is ever created, does not reach the
    ['No Mirage route registered'] error: the dispatcher reads the
    inherited value, fails to call its [recognize] and throws a
    [TypeError], with no effect at all (the request is neither fulfilled
    nor forwarded). *)
Theorem dispatch_inherited_verb (t : PlaywrightConfig) (request : PlaywrightRequest.t)
    (url : URL.t) :
  URL.parse (PlaywrightRequest.url request) = Some url →
  JS.toLowerCase (PlaywrightRequest.method request) ∈ objectPrototype →
  router t !! JS.toLowerCase (PlaywrightRequest.method request) = None →
  playwrightHandler recognize t request = (Thrown recognizeIsNotAFunction, [])
  ∧ playwrightHandler recognize t request ≠
      (Thrown ("No Mirage route registered for " +:+ URL.pathname url), []).
Proof.
  intros Hurl Hin Hr.
  assert (E : playwrightHandler recognize t request
              = (Thrown recognizeIsNotAFunction, [])).
  { unfold playwrightHandler. rewrite Hurl. unfold routerGet. rewrite Hr.
    by rewrite bool_decide_eq_true_2. }
  split; [exact E|]. rewrite E. intros H. injection H as H.
  unfold recognizeIsNotAFunction in H. cbv [String.append] in H.
  discriminate H.
Qed.

(** C3. When the first candidate recognized for an intercepted request
    has the passthrough handler, the dispatcher runs that handler and
    returns: its effects are the optional log line followed by
    [route.continue()], and [route.fulfill] is not among them. *)
Theorem dispatch_passthrough (t : PlaywrightConfig) (request : PlaywrightRequest.t)
    (url : URL.t) (matches : RouteRecognizer.Results) (first : RouteRecognizer.Result) :
  URL.parse (PlaywrightRequest.url request) = Some url →
  matchesOf recognize t (PlaywrightRequest.method request) (URL.pathname url)
    = Some matches →
  head (RouteRecognizer.results matches) = Some first →
  RouteRecognizer.result_handler first = playwrightPassthroughHandler →
  (playwrightHandler recognize t request).1 = Returned
  ∧ (playwrightHandler recognize t request).2 =
      (if shouldLog t
       then [ConsoleLog ("Mirage: Passthrough request for "
                         +:+ JS.toUpperCase (PlaywrightRequest.method request)
                         +:+ " " +:+ PlaywrightRequest.url request)]
       else [])
      ++ [RouteContinue]
  ∧ RouteContinue ∈ (playwrightHandler recognize t request).2
  ∧ ∀ response, RouteFulfill response ∉ (playwrightHandler recognize t request).2.
Proof.
  intros Hurl Hm Hfirst Hpass.
  assert (E : playwrightHandler recognize t request = runPassthroughHandler t request).
  { destruct (matchesOf_Some _ _ _ _ Hm) as (recognizer & _ & Hown & _).
    unfold playwrightHandler. rewrite Hurl, Hown, Hm. unfold matchOf. cbn.
    rewrite Hfirst. cbn. by rewrite Hpass. }
  rewrite E. unfold runPassthroughHandler. cbn [fst snd].
  repeat split.
  - apply elem_of_app. right. left.
  - intros response Hin. apply elem_of_app in Hin as [Hin|Hin].
    + destruct (shouldLog t); [|by apply elem_of_nil in Hin].
      apply list_elem_of_singleton in Hin. discriminate Hin.
    + apply list_elem_of_singleton in Hin. discriminate Hin.
Qed.

End DispatcherProperties.

(** A request for the movie route under [POST], for which the scenario
    registers nothing, is a routing miss. *)
Lemma dispatch_unmatched_witness :
  playwrightHandler RouteRecognizer.recognize Movies.instance
    (Movies.request "POST" "http://localhost/movies/42?sort=asc")
  = (Thrown "No Mirage route registered for /movies/42", []).
Proof.
  refine (dispatch_unmatched RouteRecognizer.recognize Movies.instance
            (Movies.request "POST" "http://localhost/movies/42?sort=asc")
            {| URL.href := "http://localhost/movies/42?sort=asc";
               URL.pathname := "/movies/42";
               URL.search := "?sort=asc" |} eq_refl _ _).
  - vm_compute. discriminate.
  - intros recognizer matches Hr Hm.
    vm_compute in Hr. injection Hr as <-. vm_compute in Hm. discriminate Hm.
Defined.

(** A request for the movie route under the verb [CONSTRUCTOR], for which
    nothing is registered either, fails with the [TypeError] instead. *)
Lemma dispatch_inherited_verb_witness :
  playwrightHandler RouteRecognizer.recognize Movies.instance
    (Movies.request "CONSTRUCTOR" "http://localhost/movies/42?sort=asc")
  = (Thrown recognizeIsNotAFunction, [])
  ∧ playwrightHandler RouteRecognizer.recognize Movies.instance
      (Movies.request "CONSTRUCTOR" "http://localhost/movies/42?sort=asc")
    ≠ (Thrown "No Mirage route registered for /movies/42", []).
Proof.
  refine (dispatch_inherited_verb RouteRecognizer.recognize Movies.instance
            (Movies.request "CONSTRUCTOR" "http://localhost/movies/42?sort=asc")
            {| URL.href := "http://localhost/movies/42?sort=asc";
               URL.pathname := "/movies/42";
               URL.search := "?sort=asc" |} eq_refl _ _).
  - apply (bool_decide_unpack _). vm_compute. exact I.
  - vm_compute. reflexivity.
Defined.

(** After [passthrough()], a [GET] outside the movie route is forwarded. *)
Lemma dispatch_passthrough_witness :
  (playwrightHandler RouteRecognizer.recognize Movies.forwarding
     (Movies.request "GET" "http://localhost/other?x=1")).1 = Returned
  ∧ (playwrightHandler RouteRecognizer.recognize Movies.forwarding
       (Movies.request "GET" "http://localhost/other?x=1")).2 = [RouteContinue].
Proof.
  destruct (dispatch_passthrough RouteRecognizer.recognize Movies.forwarding
              (Movies.request "GET" "http://localhost/other?x=1")
              {| URL.href := "http://localhost/other?x=1";
                 URL.pathname := "/other";
                 URL.search := "?x=1" |}
              {| RouteRecognizer.results :=
                   [ {| RouteRecognizer.result_handler := playwrightPassthroughHandler;
                        RouteRecognizer.result_params := {[ "*"%string := "other"%string ]};
                        RouteRecognizer.isDynamic := true |} ];
                 RouteRecognizer.results_queryParams := ∅ |}
              {| RouteRecognizer.result_handler := playwrightPassthroughHandler;
                 RouteRecognizer.result_params := {[ "*"%string := "other"%string ]};
                 RouteRecognizer.isDynamic := true |}
              eq_refl eq_refl eq_refl eq_refl) as (H1 & H2 & _).
  split; [exact H1 | exact H2].
Defined.

(** ** Parameter extraction *)

(** Given the path together with its query, the recognizer returns both
    the path parameter and the query parameter. *)
Lemma recognize_with_query (handler : RouteHandler) :
  RouteRecognizer.recognize (Movies.table handler) "/movies/42?sort=asc" =
    Some {| RouteRecognizer.results :=
              [ {| RouteRecognizer.result_handler := mirageHandler handler;
                   RouteRecognizer.result_params := {[ "id"%string := "42"%string ]};
                   RouteRecognizer.isDynamic := true |} ];
            RouteRecognizer.results_queryParams := {[ "sort"%string := "asc"%string ]} |}.
Proof. reflexivity. Qed.

(** C1 (what the code does). With [/movies/:id] as the only route of
    the [get] table, dispatching a [GET] of
    [http://localhost/movies/42?sort=asc] calls the handler with
    [url = "/movies/42"] and [params = {id: "42"}], but with empty
    [queryParams]: the recognizer is given [url.pathname], which never
    contains the query. *)
Theorem dispatch_movie_query (t : PlaywrightConfig) (handler : RouteHandler)
    (allHeaders : gmap string string) (postData : option string) :
  router t !! "get"%string = Some (Movies.table handler) →
  ∃ effects,
    (playwrightHandler RouteRecognizer.recognize t (Movies.get allHeaders postData)).2 =
      HandlerCall {| requestBody := default EmptyString postData;
                     requestHeaders := allHeaders;
                     url := "/movies/42";
                     params := {[ "id"%string := "42"%string ]};
                     queryParams := ∅ |}
      :: effects.
Proof.
  intros Htable. unfold playwrightHandler.
  change (URL.parse (PlaywrightRequest.url (Movies.get allHeaders postData)))
    with (Some {| URL.href := "http://localhost/movies/42?sort=asc";
                  URL.pathname := "/movies/42";
                  URL.search := "?sort=asc" |}).
  cbv iota. unfold matchesOf.
  change (JS.toLowerCase (PlaywrightRequest.method (Movies.get allHeaders postData)))
    with "get"%string.
  rewrite (routerGet_own _ _ _ Htable). cbn [URL.pathname].
  change (RouteRecognizer.recognize (Movies.table handler) "/movies/42")
    with (Some {| RouteRecognizer.results :=
                    [ {| RouteRecognizer.result_handler := mirageHandler handler;
                         RouteRecognizer.result_params := {[ "id"%string := "42"%string ]};
                         RouteRecognizer.isDynamic := true |} ];
                  RouteRecognizer.results_queryParams := ∅ |}).
  cbn.
  destruct (handler _); eexists; reflexivity.
Qed.

(** The scenario satisfies the hypothesis: its [get] table holds the
    movie route only. *)
Lemma dispatch_movie_query_witness :
  router Movies.instance !! "get"%string = Some (Movies.table Movies.handler)
  ∧ ∃ effects,
      (playwrightHandler RouteRecognizer.recognize Movies.instance (Movies.get ∅ None)).2 =
        HandlerCall {| requestBody := EmptyString;
                       requestHeaders := ∅;
                       url := "/movies/42";
                       params := {[ "id"%string := "42"%string ]};
                       queryParams := ∅ |}
        :: effects.
Proof.
  assert (H : router Movies.instance !! "get"%string
              = Some (Movies.table Movies.handler)) by reflexivity.
  split; [exact H|].
  exact (dispatch_movie_query Movies.instance Movies.handler ∅ None H).
Defined.

(** In the scenario the handler answers with the [sort] parameter it
    receives as body: the fulfilled response has no body. *)
Lemma dispatch_movie_query_scenario :
  playwrightHandler RouteRecognizer.recognize Movies.instance (Movies.get ∅ None) =
    (Returned,
     [HandlerCall {| requestBody := EmptyString;
                     requestHeaders := ∅;
                     url := "/movies/42";
                     params := {[ "id"%string := "42"%string ]};
                     queryParams := ∅ |};
      RouteFulfill {| status := 200; headers := None; body := None |}]).
Proof. reflexivity. Qed.

(** A later [passthrough()] does not take the movie route away from its
    handler. *)
Lemma dispatch_movie_after_passthrough :
  playwrightHandler RouteRecognizer.recognize Movies.forwarding (Movies.get ∅ None) =
    playwrightHandler RouteRecognizer.recognize Movies.instance (Movies.get ∅ None).
Proof. vm_compute. reflexivity. Qed.

(** The handler receives empty [queryParams] on every instance and for
    every request: the pathname of a parsed URL holds neither [?] nor [#],
    so the recognizer finds no query string in it. *)

Lemma break_stop (stop : ascii → bool) (c : ascii) (s : string) :
  stop c = true → occurs c (URL.break stop s).1 = false.
Proof.
  intros Hc. induction s as [|d s IH]; [done|]. cbn.
  destruct (stop d) eqn:Hd; [done|].
  destruct (URL.break stop s) as [w rest]. cbn in *.
  rewrite IH, orb_false_r. apply Ascii.eqb_neq. intros ->. congruence.
Qed.

Lemma parse_pathname (s : string) (u : URL.t) (c : ascii) :
  URL.parse s = Some u → URL.isQueryOrFragment c = true →
  occurs c (URL.pathname u) = false.
Proof.
  unfold URL.parse. intros Hp Hc.
  destruct (URL.afterScheme s) as [rest|]; [|done]. cbn in Hp.
  destruct (URL.break URL.isDelimiter rest) as [authority rest1].
  pose proof (break_stop URL.isQueryOrFragment c rest1 Hc) as Hb.
  destruct (URL.break URL.isQueryOrFragment rest1) as [path rest2].
  destruct (URL.break _ rest2) as [query rest3].
  injection Hp as <-. cbn [URL.pathname fst] in *.
  destruct path; [|exact Hb].
  change (Ascii.eqb "/" c || false = false).
  rewrite orb_false_r. apply Ascii.eqb_neq. intros <-. discriminate Hc.
Qed.

Lemma cut_absent (c : ascii) (s : string) :
  occurs c s = false → RouteRecognizer.cut c s = (s, None).
Proof.
  induction s as [|d s IH]; [done|]. cbn.
  intros [Hd Hs]%orb_false_elim. rewrite Hd, (IH Hs). reflexivity.
Qed.

Lemma recognize_without_query (r : RouteRecognizer.t) (path : string)
    (matches : RouteRecognizer.Results) :
  occurs "#" path = false → occurs "?" path = false →
  RouteRecognizer.recognize r path = Some matches →
  RouteRecognizer.results_queryParams matches = ∅.
Proof.
  intros Hhash Hquery. unfold RouteRecognizer.recognize.
  rewrite (cut_absent _ _ Hhash). cbn [fst]. rewrite (cut_absent _ _ Hquery).
  cbv zeta.
  destruct (RouteRecognizer.sortSolutions _) as [|state ?]; [done|].
  by intros [= <-].
Qed.

Lemma dispatch_queryParams_empty (t : PlaywrightConfig)
    (request : PlaywrightRequest.t) (mirageRequest : MirageRequest) :
  HandlerCall mirageRequest ∈ (playwrightHandler RouteRecognizer.recognize t request).2 →
  queryParams mirageRequest = ∅.
Proof.
  unfold playwrightHandler.
  destruct (URL.parse (PlaywrightRequest.url request)) as [u|] eqn:Hu;
    [|by intros ?%elem_of_nil].
  unfold matchesOf, routerGet.
  destruct (router t !! _) as [r|]; cbn;
    [|by destruct (bool_decide _); intros ?%elem_of_nil].
  destruct (RouteRecognizer.recognize r (URL.pathname u)) as [matches|] eqn:Hm;
    cbn; [|by intros ?%elem_of_nil].
  pose proof (recognize_without_query r _ matches
                (parse_pathname _ _ "#" Hu eq_refl)
                (parse_pathname _ _ "?" Hu eq_refl) Hm) as Hq.
  destruct (head (RouteRecognizer.results matches)) as [first|];
    [|by intros ?%elem_of_nil].
  destruct (RouteRecognizer.result_handler first) as [|handler].
  - unfold runPassthroughHandler. cbn.
    destruct (shouldLog t); cbn; intros Hin;
      repeat (apply elem_of_cons in Hin as [Hin|Hin]; [discriminate Hin|]);
      by apply elem_of_nil in Hin.
  - set (mr := {| requestBody := _ |}).
    assert (Hmr : queryParams mr = ∅) by exact Hq.
    destruct (handler mr) as [response| |]; cbn; [destruct (shouldLog t); cbn|..];
      intros Hin;
      (apply elem_of_cons in Hin as [Hin|Hin]; [by injection Hin as -> |]);
      repeat (apply elem_of_cons in Hin as [Hin|Hin]; [discriminate Hin|]);
      by apply elem_of_nil in Hin.
Qed.

(** ** Path composer: composing twice *)

Lemma substring_all (s : string) : String.substring 0 (String.length s) s = s.
Proof. induction s as [|c s IH]; [done|]. cbn. by rewrite IH. Qed.

Lemma substringFrom_tail (c : ascii) (s : string) :
  JS.substringFrom 1 (String c s) = s.
Proof.
  unfold JS.substringFrom.
  replace (String.length (String c s) - 1) with (String.length s)
    by (cbn [String.length]; lia).
  apply substring_all.
Qed.

Lemma prefix_append (p s : string) :
  String.prefix p s = true → ∃ rest, s = p +:+ rest.
Proof.
  revert s. induction p as [|a p IH]; intros s.
  - by exists s.
  - destruct s as [|b s]; cbn; [done|].
    destruct (Ascii.ascii_dec a b) as [->|]; [|done].
    intros [rest ->]%IH. by exists rest.
Qed.

Lemma absolute_shape (s : string) :
  JS.isAbsoluteUrl s = true →
  ∃ rest, s = "http://" +:+ rest ∨ s = "https://" +:+ rest.
Proof.
  unfold JS.isAbsoluteUrl.
  intros [[rest ->]%prefix_append|[rest ->]%prefix_append]%orb_true_iff;
    exists rest; auto.
Qed.

Lemma absolute_doubleSlash (s : string) :
  JS.isAbsoluteUrl s = true → doubleSlash s = true.
Proof.
  intros [rest [-> | ->]]%absolute_shape; cbn; by rewrite ?orb_true_r.
Qed.

(** An absolute URL is composed to itself, whatever the configuration. *)
Lemma getFullPath_absolute (t : PlaywrightConfig) (path : string) :
  JS.isAbsoluteUrl path = true → _getFullPath t path = path.
Proof.
  intros Habs.
  assert (Hs : JS.startsWithSlash path = false).
  { by destruct (absolute_shape _ Habs) as [rest [-> | ->]]. }
  unfold _getFullPath. cbv zeta. rewrite Hs, Habs. reflexivity.
Qed.

(** Without prefix and namespace, composing strips one leading slash,
    then either keeps an absolute URL or puts a slash in front and
    collapses the runs of slashes. *)
Lemma getFullPath_unconfigured (t : PlaywrightConfig) (path : string) :
  JS.truthy (urlPrefix t) = false → JS.truthy (namespace t) = false →
  _getFullPath t path =
    let path := if JS.startsWithSlash path then JS.substringFrom 1 path else path in
    if JS.isAbsoluteUrl path then path
    else JS.collapseSlashes (String JS.slash path).
Proof.
  intros Hu Hn. unfold _getFullPath. cbv zeta. rewrite Hu, Hn. cbn.
  destruct (JS.isAbsoluteUrl _); reflexivity.
Qed.

Lemma collapseSlashes_head (s : string) :
  ∃ rest, JS.collapseSlashes (String JS.slash s) = String JS.slash rest.
Proof.
  induction s as [|c s IH].
  - by exists EmptyString.
  - cbn. destruct (Ascii.eqb c JS.slash) eqn:Hc.
    + apply Ascii.eqb_eq in Hc as ->. exact IH.
    + eexists. reflexivity.
Qed.

Lemma collapseSlashes_startsWithSlash (s : string) :
  JS.startsWithSlash (JS.collapseSlashes s) = JS.startsWithSlash s.
Proof.
  destruct s as [|c s]; [done|].
  destruct (Ascii.eqb c JS.slash) eqn:Hc.
  - apply Ascii.eqb_eq in Hc as ->.
    by destruct (collapseSlashes_head s) as [rest ->].
  - cbn. rewrite Hc. cbn. unfold JS.startsWithSlash. cbn. by rewrite Hc.
Qed.

Lemma collapseSlashes_single (s : string) :
  doubleSlash (JS.collapseSlashes s) = false.
Proof.
  induction s as [|c s IH]; [done|].
  cbn [JS.collapseSlashes].
  destruct (Ascii.eqb c JS.slash) eqn:Hc.
  - destruct s as [|d s]; [by cbn; rewrite Hc|].
    destruct (Ascii.eqb d JS.slash) eqn:Hd; [exact IH|].
    cbn [doubleSlash]. rewrite IH, collapseSlashes_startsWithSlash.
    unfold JS.startsWithSlash. cbn. by rewrite Hd, andb_false_r.
  - cbn [doubleSlash]. by rewrite Hc, IH.
Qed.

Lemma collapseSlashes_fixed (s : string) :
  doubleSlash s = false → JS.collapseSlashes s = s.
Proof.
  induction s as [|c s IH]; [done|].
  cbn [doubleSlash JS.collapseSlashes].
  intros [Hcs Hs]%orb_false_elim.
  destruct (Ascii.eqb c JS.slash) eqn:Hc.
  - destruct s as [|d s]; [done|].
    unfold JS.startsWithSlash in Hcs. cbn in Hcs.
    rewrite Hcs. by rewrite (IH Hs).
  - by rewrite (IH Hs).
Qed.

(** C5 (amended). Composing an already composed path again gives the
    same path when neither a prefix nor a namespace is configured, and,
    under any configuration, whenever the composed path is an absolute
    [http(s)] URL. *)
Theorem getFullPath_idempotent (t : PlaywrightConfig) (path : string) :
  (JS.truthy (urlPrefix t) = false ∧ JS.truthy (namespace t) = false)
  ∨ JS.isAbsoluteUrl (_getFullPath t path) = true →
  _getFullPath t (_getFullPath t path) = _getFullPath t path.
Proof.
  intros [[Hu Hn]|Habs]; [|by apply getFullPath_absolute].
  rewrite (getFullPath_unconfigured t path Hu Hn). cbv zeta.
  set (p := if JS.startsWithSlash path then JS.substringFrom 1 path else path).
  destruct (JS.isAbsoluteUrl p) eqn:Hp; [by apply getFullPath_absolute|].
  pose proof (collapseSlashes_single (String JS.slash p)) as Hsingle.
  destruct (collapseSlashes_head p) as [rest Hrest].
  rewrite Hrest in *.
  rewrite (getFullPath_unconfigured t _ Hu Hn). cbv zeta.
  change (JS.startsWithSlash (String JS.slash rest)) with true. cbv iota.
  rewrite substringFrom_tail.
  destruct (JS.isAbsoluteUrl rest) eqn:Hr.
  - apply absolute_doubleSlash in Hr.
    cbn [doubleSlash] in Hsingle. rewrite Hr, orb_true_r in Hsingle.
    discriminate Hsingle.
  - by apply collapseSlashes_fixed.
Qed.

(** Both cases occur: an unconfigured instance, and a configured one
    whose prefix makes the composed path absolute. *)
Lemma getFullPath_idempotent_witness :
  _getFullPath newPlaywrightConfig (_getFullPath newPlaywrightConfig "//movies//42")
    = _getFullPath newPlaywrightConfig "//movies//42"
  ∧ _getFullPath (configured "http://h:1" "/api/" newPlaywrightConfig)
      (_getFullPath (configured "http://h:1" "/api/" newPlaywrightConfig) "a")
    = _getFullPath (configured "http://h:1" "/api/" newPlaywrightConfig) "a".
Proof.
  split.
  - exact (getFullPath_idempotent newPlaywrightConfig "//movies//42"
             (or_introl (conj eq_refl eq_refl))).
  - exact (getFullPath_idempotent (configured "http://h:1" "/api/" newPlaywrightConfig)
             "a" (or_intror eq_refl)).
Defined.

(** C5 as stated fails: with the namespace ["/api"], composing ["a"]
    gives ["/api/a"], and composing that again gives ["/api/api/a"]. *)
Lemma getFullPath_not_idempotent :
  _getFullPath (configured "" "/api" newPlaywrightConfig) "a" = "/api/a"%string
  ∧ _getFullPath (configured "" "/api" newPlaywrightConfig)
      (_getFullPath (configured "" "/api" newPlaywrightConfig) "a")
    = "/api/api/a"%string
  ∧ _getFullPath (configured "" "/api" newPlaywrightConfig)
      (_getFullPath (configured "" "/api" newPlaywrightConfig) "a")
    ≠ _getFullPath (configured "" "/api" newPlaywrightConfig) "a".
Proof. repeat split. discriminate. Qed.

(** * Further properties *)

(** ** Route arguments *)

Lemma extractRouteArguments_snoc (args : list JSValue) (arg : JSValue) :
  extractRouteArguments (args ++ [arg]) =
    let '(r0, r1, r2) := extractRouteArguments args in
    match optionsOf arg, numberOf arg with
    | Some o, _ => (r0, r1, spread defaultRouteOptions o)
    | None, Some n => (r0, Some n, r2)
    | None, None => (arg, r1, r2)
    end.
Proof.
  unfold extractRouteArguments. rewrite foldl_app. cbn [foldl].
  destruct (foldl _ _ args) as [[r0 r1] r2].
  destruct arg as [| |n|s|id|o]; try reflexivity.
  unfold optionsOf. by destruct (isOption (VObject o)).
Qed.

Lemma isRawHandler_kind (arg : JSValue) :
  isRawHandler arg =
    match optionsOf arg, numberOf arg with
    | None, None => true
    | _, _ => false
    end.
Proof.
  destruct arg as [| |n|s|id|o]; try reflexivity.
  unfold isRawHandler, optionsOf. by destruct (isOption (VObject o)).
Qed.

(** X1. [extractRouteArguments] goes by the kind of each argument, not
    by its position: the handler is the last argument that is neither an
    option object nor a number ([undefined] when there is none), the code
    is the last number, and the options are the defaults overlaid with the
    last option object, or the empty object when no option object is
    passed. *)
Theorem extractRouteArguments_last_wins (args : list JSValue) :
  extractRouteArguments args =
    (default VUndefined (last (filter (λ arg, isRawHandler arg = true) args)),
     last (omap numberOf args),
     default [] (spread defaultRouteOptions <$> last (omap optionsOf args))).
Proof.
  induction args as [|arg args IH] using rev_ind; [reflexivity|].
  rewrite extractRouteArguments_snoc, IH.
  rewrite filter_app, !omap_app, filter_cons, filter_nil.
  cbn [omap list_omap]. rewrite (isRawHandler_kind arg).
  assert (Hkind : optionsOf arg = None ∨ numberOf arg = None).
  { destruct arg; auto. }
  destruct (optionsOf arg) as [o|], (numberOf arg) as [n|];
    [by destruct Hkind|rewrite decide_False by done..|rewrite decide_True by done];
    rewrite ?app_nil_r, ?last_snoc; reflexivity.
Qed.

(** X2. A payload object that happens to have a key named [coalesce] or
    [timing] is taken for the options: passed with a response code, it
    leaves the handler [undefined]. *)
Theorem extractRouteArguments_payload_as_options (payload : Object) (code : Z)
    (key : string) :
  key ∈ keys payload →
  key = "coalesce"%string ∨ key = "timing"%string →
  extractRouteArguments [VObject payload; VNumber code] =
    (VUndefined, Some code, spread defaultRouteOptions payload).
Proof.
  intros Hin Hkey.
  assert (Hopt : isOption (VObject payload) = true).
  { unfold isOption. apply existsb_exists. exists key.
    split; [by apply list_elem_of_In|].
    apply bool_decide_eq_true, list_elem_of_In.
    destruct Hkey as [-> | ->]; cbn; auto. }
  unfold extractRouteArguments. cbn [foldl]. by rewrite Hopt.
Qed.

Lemma extractRouteArguments_payload_as_options_witness :
  "timing"%string ∈ keys [("name"%string, PString "Foo"); ("timing"%string, PNumber 5)]
  ∧ extractRouteArguments
      [VObject [("name"%string, PString "Foo"); ("timing"%string, PNumber 5)];
       VNumber 201] =
    (VUndefined, Some 201%Z,
     [("coalesce"%string, PBoolean false); ("timing"%string, PNumber 5);
      ("name"%string, PString "Foo")]).
Proof.
  assert (H : "timing"%string
              ∈ keys [("name"%string, PString "Foo"); ("timing"%string, PNumber 5)]).
  { apply list_elem_of_In. right. left. reflexivity. }
  split; [exact H|].
  exact (extractRouteArguments_payload_as_options
           [("name"%string, PString "Foo"); ("timing"%string, PNumber 5)]
           201 "timing" H (or_intror eq_refl)).
Defined.

Lemma getProperty_setProperty (key k : string) (v : Primitive) (o : Object) :
  getProperty k (setProperty key v o) =
    if String.eqb key k then Some v else getProperty k o.
Proof.
  induction o as [|[k' w] o IH]; cbn.
  - reflexivity.
  - destruct (String.eqb k' key) eqn:Hk'; cbn.
    + apply String.eqb_eq in Hk' as ->. by destruct (String.eqb key k).
    + rewrite IH. destruct (String.eqb k' k) eqn:Hkk; [|done].
      apply String.eqb_eq in Hkk as ->.
      by rewrite String.eqb_sym, Hk'.
Qed.

Lemma getProperty_None (k : string) (o : Object) :
  k ∉ keys o → getProperty k o = None.
Proof.
  induction o as [|[k' w] o IH]; [done|]. cbn.
  intros Hnin. destruct (String.eqb k' k) eqn:Hk.
  - apply String.eqb_eq in Hk as ->. exfalso. apply Hnin. left.
  - apply IH. intros Hin. apply Hnin. by right.
Qed.

Lemma getProperty_spread (k : string) (a b : Object) :
  NoDup (keys b) →
  getProperty k (spread a b) =
    match getProperty k b with
    | Some v => Some v
    | None => getProperty k a
    end.
Proof.
  unfold spread. intros Hnd. revert a.
  induction b as [|[k' v] b IH]; intros a; [done|].
  cbn in Hnd. apply NoDup_cons in Hnd as [Hk' Hnd].
  cbn [foldl fst snd getProperty]. rewrite (IH Hnd), getProperty_setProperty.
  destruct (String.eqb k' k) eqn:Hk; [|done].
  apply String.eqb_eq in Hk as ->. by rewrite (getProperty_None _ _ Hk').
Qed.

(** X3. The options handed to [registerRouteHandler] for an option
    object are that object completed by the defaults: each property of the
    object keeps its value, and [coalesce] and [timing] are there with
    [false] and [undefined] when the object does not set them. *)
Theorem extractRouteArguments_defaults (o : Object) (key : string) :
  NoDup (keys o) →
  isOption (VObject o) = true →
  getProperty key (extractRouteArguments [VObject o]).2 =
    match getProperty key o with
    | Some v => Some v
    | None => getProperty key defaultRouteOptions
    end.
Proof.
  intros Hnd Hopt. unfold extractRouteArguments. cbn [foldl]. rewrite Hopt.
  cbn [snd]. by apply getProperty_spread.
Qed.

Lemma extractRouteArguments_defaults_witness :
  NoDup (keys [("timing"%string, PNumber 400)])
  ∧ isOption (VObject [("timing"%string, PNumber 400)]) = true
  ∧ getProperty "coalesce"
      (extractRouteArguments [VObject [("timing"%string, PNumber 400)]]).2
    = Some (PBoolean false)
  ∧ getProperty "timing"
      (extractRouteArguments [VObject [("timing"%string, PNumber 400)]]).2
    = Some (PNumber 400).
Proof.
  assert (Hnd : NoDup (keys [("timing"%string, PNumber 400)])).
  { apply NoDup_singleton. }
  split; [exact Hnd | split; [reflexivity | split]].
  - exact (extractRouteArguments_defaults _ "coalesce" Hnd eq_refl).
  - exact (extractRouteArguments_defaults _ "timing" Hnd eq_refl).
Defined.

(** ** Composer configuration, continued *)

Lemma or_settled (u c : option string) :
  JS.or (JS.or (JS.or (JS.or u c) (Some EmptyString)) c) (Some EmptyString)
  = JS.or (JS.or u c) (Some EmptyString).
Proof.
  unfold JS.or.
  destruct (JS.truthy u) eqn:Hu; [by rewrite !Hu|].
  destruct (JS.truthy c) eqn:Hc; [by rewrite !Hc|].
  cbn. by rewrite Hc.
Qed.

Lemma or_defined (v : option string) : is_Some (JS.or v (Some EmptyString)).
Proof. destruct v as [[|c s]|]; by eexists. Qed.

(** X4. After [config], [urlPrefix] and [namespace] are strings (no
    longer [undefined]), and configuring again with the same configuration
    changes nothing. *)
Theorem config_settles (c : ServerConfig.t) (t : PlaywrightConfig) :
  is_Some (urlPrefix (config c t).2)
  ∧ is_Some (namespace (config c t).2)
  ∧ config c (config c t).2 = config c t.
Proof.
  rewrite !config_result. cbn [fst snd urlPrefix namespace set_urlPrefix set_namespace].
  split; [apply or_defined | split; [apply or_defined |]].
  - by rewrite !or_settled.
Qed.

(** X5. A field of the composer configuration that is still unset or
    empty takes the value of the configuration object when that value is a
    non-empty string, and becomes the empty string otherwise. *)
Theorem config_fills (c : ServerConfig.t) (t : PlaywrightConfig) :
  (JS.truthy (urlPrefix t) = false →
   urlPrefix (config c t).2 =
     if JS.truthy (ServerConfig.urlPrefix c) then ServerConfig.urlPrefix c
     else Some EmptyString)
  ∧ (JS.truthy (namespace t) = false →
     namespace (config c t).2 =
       if JS.truthy (ServerConfig.namespace c) then ServerConfig.namespace c
       else Some EmptyString).
Proof.
  rewrite config_result. cbn [snd urlPrefix namespace set_urlPrefix set_namespace].
  unfold JS.or. split; intros ->.
  - by destruct (JS.truthy (ServerConfig.urlPrefix c)) eqn:Hc; rewrite ?Hc.
  - by destruct (JS.truthy (ServerConfig.namespace c)) eqn:Hc; rewrite ?Hc.
Qed.

Lemma config_fills_witness :
  urlPrefix (config Movies.mirageConfig newPlaywrightConfig).2 = Some EmptyString
  ∧ namespace
      (config {| ServerConfig.page := None; ServerConfig.interceptUrlPattern := None;
                 ServerConfig.urlPrefix := None;
                 ServerConfig.namespace := Some "/api"%string |}
              newPlaywrightConfig).2 = Some "/api"%string.
Proof.
  split.
  - exact (proj1 (config_fills Movies.mirageConfig newPlaywrightConfig) eq_refl).
  - exact (proj2 (config_fills
                    {| ServerConfig.page := None;
                       ServerConfig.interceptUrlPattern := None;
                       ServerConfig.urlPrefix := None;
                       ServerConfig.namespace := Some "/api"%string |}
                    newPlaywrightConfig) eq_refl).
Defined.

(** ** Path composer, continued *)

(** X6. One leading slash of the path makes no difference:
    [_getFullPath("/" + p)] is [_getFullPath(p)] for every [p] that does
    not itself start with a slash, under every configuration. *)
Theorem getFullPath_leading_slash (t : PlaywrightConfig) (p : string) :
  JS.startsWithSlash p = false →
  _getFullPath t (String JS.slash p) = _getFullPath t p.
Proof.
  intros Hp. unfold _getFullPath. cbv zeta.
  change (JS.startsWithSlash (String JS.slash p)) with true. cbv iota.
  by rewrite substringFrom_tail, Hp.
Qed.

Lemma getFullPath_leading_slash_witness :
  JS.startsWithSlash "contacts" = false
  ∧ _getFullPath (configured "" "/api" newPlaywrightConfig) "/contacts"
    = _getFullPath (configured "" "/api" newPlaywrightConfig) "contacts".
Proof.
  split; [reflexivity|].
  exact (getFullPath_leading_slash (configured "" "/api" newPlaywrightConfig)
           "contacts" eq_refl).
Defined.

(** X7. A path that is an absolute [http(s)] URL, written with or
    without one leading slash, is composed to that URL itself: prefix and
    namespace are ignored. *)
Theorem getFullPath_absolute_path (t : PlaywrightConfig) (p : string) :
  JS.isAbsoluteUrl p = true →
  _getFullPath t p = p ∧ _getFullPath t (String JS.slash p) = p.
Proof.
  intros Habs. split; [by apply getFullPath_absolute|].
  unfold _getFullPath. cbv zeta.
  change (JS.startsWithSlash (String JS.slash p)) with true. cbv iota.
  by rewrite substringFrom_tail, Habs.
Qed.

Lemma getFullPath_absolute_path_witness :
  JS.isAbsoluteUrl "https://cdn.example/x" = true
  ∧ _getFullPath (configured "http://h:1" "/api" newPlaywrightConfig)
      "https://cdn.example/x" = "https://cdn.example/x"%string
  ∧ _getFullPath (configured "http://h:1" "/api" newPlaywrightConfig)
      "/https://cdn.example/x" = "https://cdn.example/x"%string.
Proof.
  split; [reflexivity|].
  exact (getFullPath_absolute_path (configured "http://h:1" "/api" newPlaywrightConfig)
           "https://cdn.example/x" eq_refl).
Defined.

Lemma startsWithSlash_append (a b : string) :
  JS.startsWithSlash a = true → JS.startsWithSlash (a +:+ b) = true.
Proof. by destruct a. Qed.

Lemma startsWithSlash_not_absolute (s : string) :
  JS.startsWithSlash s = true → JS.isAbsoluteUrl s = false.
Proof.
  intros Hs. destruct (JS.isAbsoluteUrl s) eqn:Habs; [|done].
  by destruct (absolute_shape _ Habs) as [rest [-> | ->]].
Qed.

Lemma namespaceWithoutPrefix_shape (ns : string) :
  namespaceWithoutPrefix ns = EmptyString
  ∨ JS.startsWithSlash (namespaceWithoutPrefix ns) = true.
Proof.
  unfold namespaceWithoutPrefix. cbv zeta.
  destruct (JS.startsWithSlash ns) eqn:Hs, (JS.endsWithSlash ns) eqn:He;
    cbn [andb negb]; auto.
  destruct ns as [|c [|d s]]; [by left | by left |].
  right. unfold JS.substring. cbn -[Ascii.eqb]. exact Hs.
Qed.

(** Composition without a prefix. *)
Lemma getFullPath_no_prefix (t : PlaywrightConfig) (path : string) :
  JS.truthy (urlPrefix t) = false →
  _getFullPath t path =
    let p := if JS.startsWithSlash path then JS.substringFrom 1 path else path in
    let ns :=
      if JS.truthy (namespace t)
      then namespaceWithoutPrefix (default EmptyString (namespace t))
      else EmptyString in
    if JS.isAbsoluteUrl p then p
    else
      let full := (if negb (JS.endsWithSlash ns) then ns +:+ "/" else ns) +:+ p in
      if negb (JS.isAbsoluteUrl full) then JS.collapseSlashes (String JS.slash full)
      else full.
Proof.
  intros Hu. unfold _getFullPath. cbv zeta. rewrite Hu.
  destruct (JS.truthy (namespace t)); reflexivity.
Qed.

(** X8. Without a [urlPrefix], every path that is not an absolute URL
    is composed to a path that starts with a slash and holds no two
    slashes in a row, whatever the namespace. *)
Theorem getFullPath_same_origin (t : PlaywrightConfig) (path : string) :
  JS.truthy (urlPrefix t) = false →
  JS.isAbsoluteUrl
    (if JS.startsWithSlash path then JS.substringFrom 1 path else path) = false →
  JS.startsWithSlash (_getFullPath t path) = true
  ∧ doubleSlash (_getFullPath t path) = false.
Proof.
  intros Hu Hp. rewrite (getFullPath_no_prefix t path Hu). cbv zeta. rewrite Hp.
  set (p := if JS.startsWithSlash path then JS.substringFrom 1 path else path).
  set (ns := if JS.truthy (namespace t) then _ else EmptyString).
  assert (Hns : ns = EmptyString ∨ JS.startsWithSlash ns = true).
  { subst ns. destruct (JS.truthy (namespace t)); [|by left].
    apply namespaceWithoutPrefix_shape. }
  set (full := (if negb (JS.endsWithSlash ns) then ns +:+ "/" else ns) +:+ p).
  assert (Hfull : JS.startsWithSlash full = true).
  { subst full. apply startsWithSlash_append.
    destruct Hns as [-> | Hns]; [reflexivity|].
    destruct (negb (JS.endsWithSlash ns)); [by apply startsWithSlash_append | done]. }
  rewrite (startsWithSlash_not_absolute _ Hfull). cbn [negb].
  split; [|apply collapseSlashes_single].
  by destruct (collapseSlashes_head full) as [rest ->].
Qed.

Lemma getFullPath_same_origin_witness :
  JS.truthy (urlPrefix (configured "" "//api//v1/" newPlaywrightConfig)) = false
  ∧ _getFullPath (configured "" "//api//v1/" newPlaywrightConfig) "//movies///42"
    = "/api/v1/movies/42"%string
  ∧ JS.startsWithSlash
      (_getFullPath (configured "" "//api//v1/" newPlaywrightConfig) "//movies///42")
    = true
  ∧ doubleSlash
      (_getFullPath (configured "" "//api//v1/" newPlaywrightConfig) "//movies///42")
    = false.
Proof.
  split; [reflexivity | split; [reflexivity|]].
  exact (getFullPath_same_origin (configured "" "//api//v1/" newPlaywrightConfig)
           "//movies///42" eq_refl eq_refl).
Defined.

Lemma append_assoc (a b c : string) : (a +:+ b) +:+ c = a +:+ (b +:+ c).
Proof.
  induction a as [|x a IH]; [done|].
  change (String x ((a +:+ b) +:+ c) = String x (a +:+ (b +:+ c))).
  by f_equal.
Qed.

Lemma append_empty_r (a : string) : a +:+ EmptyString = a.
Proof.
  induction a as [|x a IH]; [done|].
  change (String x (a +:+ EmptyString) = String x a). by f_equal.
Qed.

Lemma prefix_append_l (p x : string) : String.prefix p (p +:+ x) = true.
Proof.
  induction p as [|a p IH]; [by destruct x|].
  change (String.prefix (String a p) (String a (p +:+ x)) = true). cbn.
  by destruct (Ascii.ascii_dec a a).
Qed.

Lemma absolute_append (a b : string) :
  JS.isAbsoluteUrl a = true → JS.isAbsoluteUrl (a +:+ b) = true.
Proof.
  unfold JS.isAbsoluteUrl.
  intros [[rest ->]%prefix_append|[rest ->]%prefix_append]%orb_true_iff;
    rewrite append_assoc, prefix_append_l; [done | apply orb_true_r].
Qed.

(** Composition with a prefix that is not blank. *)
Lemma getFullPath_with_prefix (t : PlaywrightConfig) (path prefix : string) :
  urlPrefix t = Some prefix →
  Nat.ltb 0 (String.length (JS.trim prefix)) = true →
  _getFullPath t path =
    let p := if JS.startsWithSlash path then JS.substringFrom 1 path else path in
    let ns :=
      if JS.truthy (namespace t)
      then namespaceWithPrefix (default EmptyString (namespace t))
      else EmptyString in
    if JS.isAbsoluteUrl p then p
    else
      let q :=
        if JS.endsWithSlash (JS.trim prefix) then JS.trim prefix
        else JS.trim prefix +:+ "/" in
      let full :=
        (if negb (JS.endsWithSlash (q +:+ ns)) then (q +:+ ns) +:+ "/" else q +:+ ns)
        +:+ p in
      if negb (JS.isAbsoluteUrl full) then JS.collapseSlashes (String JS.slash full)
      else full.
Proof.
  intros Hu Hlen.
  assert (Htruthy : JS.truthy (Some prefix) = true).
  { destruct prefix; [discriminate Hlen | done]. }
  unfold _getFullPath. cbv zeta. rewrite Hu, Htruthy.
  change (default EmptyString (Some prefix)) with prefix. rewrite Hlen.
  destruct (JS.truthy (namespace t)); reflexivity.
Qed.

(** X9. With a [urlPrefix] that is an absolute [http(s)] URL, every
    path that is not itself absolute is composed to a URL that begins with
    the trimmed prefix and ends with the path (less its one leading
    slash) exactly as given: in this case runs of slashes are kept. *)
Theorem getFullPath_absolute_prefix (t : PlaywrightConfig) (path prefix : string) :
  urlPrefix t = Some prefix →
  JS.isAbsoluteUrl (JS.trim prefix) = true →
  JS.isAbsoluteUrl
    (if JS.startsWithSlash path then JS.substringFrom 1 path else path) = false →
  ∃ middle,
    _getFullPath t path =
      JS.trim prefix +:+ middle
      +:+ (if JS.startsWithSlash path then JS.substringFrom 1 path else path).
Proof.
  intros Hu Habs Hp.
  assert (Hlen : Nat.ltb 0 (String.length (JS.trim prefix)) = true).
  { by destruct (absolute_shape _ Habs) as [rest [-> | ->]]. }
  rewrite (getFullPath_with_prefix t path prefix Hu Hlen). cbv zeta. rewrite Hp.
  set (p := if JS.startsWithSlash path then JS.substringFrom 1 path else path).
  set (ns := if JS.truthy (namespace t) then _ else EmptyString).
  set (q := if JS.endsWithSlash (JS.trim prefix) then JS.trim prefix
            else JS.trim prefix +:+ "/").
  assert (Hq : ∃ sep, q = JS.trim prefix +:+ sep).
  { subst q. destruct (JS.endsWithSlash (JS.trim prefix)).
    - exists EmptyString. by rewrite append_empty_r.
    - by eexists. }
  destruct Hq as [sep Hq].
  set (full := (if negb (JS.endsWithSlash (q +:+ ns)) then _ else _) +:+ p).
  assert (Hfull : ∃ middle, full = JS.trim prefix +:+ middle +:+ p).
  { subst full. destruct (negb (JS.endsWithSlash (q +:+ ns))); rewrite Hq.
    - exists (sep +:+ ns +:+ "/"). by rewrite !append_assoc.
    - exists (sep +:+ ns). by rewrite !append_assoc. }
  destruct Hfull as [middle Hfull].
  exists middle.
  assert (Ha : JS.isAbsoluteUrl full = true).
  { rewrite Hfull. by apply absolute_append. }
  by rewrite Ha.
Qed.

Lemma getFullPath_absolute_prefix_witness :
  JS.isAbsoluteUrl (JS.trim " http://localhost:8080 ") = true
  ∧ ∃ middle,
      _getFullPath (configured " http://localhost:8080 " "api" newPlaywrightConfig)
        "/movies//42"
      = JS.trim " http://localhost:8080 " +:+ middle +:+ "movies//42".
Proof.
  split; [reflexivity|].
  exact (getFullPath_absolute_prefix
           (configured " http://localhost:8080 " "api" newPlaywrightConfig)
           "/movies//42" " http://localhost:8080 " eq_refl eq_refl eq_refl).
Defined.

Lemma length_append (a b : string) :
  String.length (a +:+ b) = String.length a + String.length b.
Proof.
  induction a as [|x a IH]; [done|].
  change (S (String.length (a +:+ b)) = S (String.length a + String.length b)).
  by f_equal.
Qed.

Lemma substring_append (a b : string) :
  String.substring 0 (String.length a) (a +:+ b) = a.
Proof.
  induction a as [|x a IH]; [by destruct b|].
  change (String x (String.substring 0 (String.length a) (a +:+ b)) = String x a).
  by f_equal.
Qed.

Lemma endsWithSlash_cons (c : ascii) (s : string) :
  s ≠ EmptyString → JS.endsWithSlash (String c s) = JS.endsWithSlash s.
Proof. by destruct s. Qed.

Lemma append_not_empty (a : string) (c : ascii) (b : string) :
  a +:+ String c b ≠ EmptyString.
Proof. by destruct a. Qed.

Lemma endsWithSlash_append_slash (s : string) :
  JS.endsWithSlash (s +:+ "/") = true.
Proof.
  induction s as [|x s IH]; [done|].
  change (JS.endsWithSlash (String x (s +:+ "/")) = true).
  rewrite endsWithSlash_cons; [done | apply append_not_empty].
Qed.

Lemma startsWithSlash_append_l (a b : string) :
  a ≠ EmptyString → JS.startsWithSlash (a +:+ b) = JS.startsWithSlash a.
Proof. by destruct a. Qed.

(** The four spellings of a namespace: bare, with a leading slash, with
    a trailing slash, with both. *)
Lemma namespace_spellings (s ns : string) :
  s ≠ EmptyString →
  JS.startsWithSlash s = false → JS.endsWithSlash s = false →
  ns ∈ [s; "/" +:+ s; s +:+ "/"; "/" +:+ s +:+ "/"] →
  ns ≠ EmptyString
  ∧ namespaceWithPrefix ns = s
  ∧ namespaceWithoutPrefix ns = "/" +:+ s.
Proof.
  intros Hne Hs He Hin.
  assert (Hlen : String.length (s +:+ "/") - 1 = String.length s).
  { rewrite length_append. cbn. lia. }
  repeat (apply elem_of_cons in Hin as [->|Hin]); [..|by apply elem_of_nil in Hin].
  - split; [done|]. unfold namespaceWithPrefix, namespaceWithoutPrefix.
    cbv zeta. by rewrite Hs, He.
  - change ("/" +:+ s) with (String JS.slash s).
    split; [done|]. unfold namespaceWithPrefix, namespaceWithoutPrefix. cbv zeta.
    rewrite (endsWithSlash_cons _ _ Hne), He.
    change (JS.startsWithSlash (String JS.slash s)) with true. cbn [andb negb].
    by rewrite substringFrom_tail.
  - split; [apply append_not_empty|].
    unfold namespaceWithPrefix, namespaceWithoutPrefix. cbv zeta.
    rewrite endsWithSlash_append_slash, (startsWithSlash_append_l _ _ Hne), Hs.
    cbn [andb negb]. unfold JS.substring.
    by rewrite Hlen, Nat.sub_0_r, substring_append.
  - change ("/" +:+ s +:+ "/") with (String JS.slash (s +:+ "/")).
    split; [done|]. unfold namespaceWithPrefix, namespaceWithoutPrefix. cbv zeta.
    rewrite (endsWithSlash_cons _ _ (append_not_empty s _ _)),
      endsWithSlash_append_slash.
    change (JS.startsWithSlash (String JS.slash (s +:+ "/"))) with true.
    cbn [andb negb]. unfold JS.substring.
    replace (String.length (String JS.slash (s +:+ "/")) - 1 - 0)
      with (S (String.length s))
      by (cbn [String.length]; rewrite length_append; cbn; lia).
    change (String.substring 0 (S (String.length s)) (String JS.slash (s +:+ "/")))
      with (String JS.slash (String.substring 0 (String.length s) (s +:+ "/"))).
    by rewrite substring_append, substringFrom_tail.
Qed.

Lemma getFullPath_namespace_ext (t : PlaywrightConfig) (n1 n2 path : string) :
  n1 ≠ EmptyString → n2 ≠ EmptyString →
  namespaceWithPrefix n1 = namespaceWithPrefix n2 →
  namespaceWithoutPrefix n1 = namespaceWithoutPrefix n2 →
  _getFullPath (set_namespace (Some n1) t) path
  = _getFullPath (set_namespace (Some n2) t) path.
Proof.
  intros H1 H2 Hwith Hwithout.
  assert (T1 : JS.truthy (Some n1) = true) by by destruct n1.
  assert (T2 : JS.truthy (Some n2) = true) by by destruct n2.
  unfold _getFullPath. cbn [namespace urlPrefix set_namespace]. cbv zeta.
  change (default EmptyString (Some n1)) with n1.
  change (default EmptyString (Some n2)) with n2.
  by rewrite T1, T2, Hwith, Hwithout.
Qed.

(** X10. How the namespace is written with respect to slashes does not
    matter: for a namespace [s] without leading or trailing slash, the
    instance composes every path the same way whether its namespace is
    [s], ["/" + s], [s + "/"] or ["/" + s + "/"], with or without a
    prefix. *)
Theorem getFullPath_namespace_slashes (t : PlaywrightConfig) (s ns path : string) :
  s ≠ EmptyString →
  JS.startsWithSlash s = false → JS.endsWithSlash s = false →
  ns ∈ [s; "/" +:+ s; s +:+ "/"; "/" +:+ s +:+ "/"] →
  _getFullPath (set_namespace (Some ns) t) path
  = _getFullPath (set_namespace (Some s) t) path.
Proof.
  intros Hne Hs He Hin.
  destruct (namespace_spellings s ns Hne Hs He Hin) as (Hns & Hwith & Hwithout).
  destruct (namespace_spellings s s Hne Hs He) as (_ & Hwith' & Hwithout'); [left|].
  apply getFullPath_namespace_ext; [done | done | congruence | congruence].
Qed.

Lemma getFullPath_namespace_slashes_witness :
  _getFullPath (set_namespace (Some "/api/v1/"%string) newPlaywrightConfig) "movies"
  = _getFullPath (set_namespace (Some "api/v1"%string) newPlaywrightConfig) "movies"
  ∧ _getFullPath
      (set_namespace (Some "api/v1/"%string)
         (set_urlPrefix (Some "http://h:1"%string) newPlaywrightConfig)) "movies"
    = _getFullPath
        (set_namespace (Some "api/v1"%string)
           (set_urlPrefix (Some "http://h:1"%string) newPlaywrightConfig)) "movies".
Proof.
  split.
  - refine (getFullPath_namespace_slashes newPlaywrightConfig "api/v1" "/api/v1/"
              "movies" _ eq_refl eq_refl _); [discriminate|].
    apply list_elem_of_In. right. right. right. left. reflexivity.
  - refine (getFullPath_namespace_slashes
              (set_urlPrefix (Some "http://h:1"%string) newPlaywrightConfig)
              "api/v1" "api/v1/" "movies" _ eq_refl eq_refl _); [discriminate|].
    apply list_elem_of_In. right. right. left. reflexivity.
Defined.

(** ** Registration functions *)

Lemma register_unfold (verb path : string) (args : list JSValue)
    (t : PlaywrightConfig) :
  register verb path args t =
    match mirageServer t with
    | None => (Throw "Lost the mirageServer", t)
    | Some server =>
        routerAdd verb
          {| RouteRecognizer.path := _getFullPath t path;
             RouteRecognizer.handler :=
               mirageHandler
                 (MirageServer.registerRouteHandler server verb path
                    (extractRouteArguments args).1.1
                    (extractRouteArguments args).1.2
                    (extractRouteArguments args).2) |} t
    end.
Proof.
  unfold register. destruct (extractRouteArguments args) as [[h code] opts].
  unfold mbind, M_bind, getThis. cbn. by destruct (mirageServer t).
Qed.

(** X11. A registration function adds exactly one route, after the
    earlier ones, to the table of its verb and changes nothing else: the
    route's pattern is the composed path, and its handler is the one the
    Mirage server returns for the verb, the path as written and the
    extracted handler, code and options. *)
Theorem register_adds_route (verb path : string) (args : list JSValue)
    (t : PlaywrightConfig) (server : MirageServer.t) (registered : RouteRecognizer.t) :
  mirageServer t = Some server →
  router t !! verb = Some registered →
  register verb path args t =
    (Ok (),
     set_router
       (<[verb :=
            registered ++
            [ {| RouteRecognizer.path := _getFullPath t path;
                 RouteRecognizer.handler :=
                   mirageHandler
                     (MirageServer.registerRouteHandler server verb path
                        (extractRouteArguments args).1.1
                        (extractRouteArguments args).1.2
                        (extractRouteArguments args).2) |} ]]>
          (router t))
       t).
Proof.
  intros Hserver Htable. rewrite register_unfold, Hserver.
  unfold routerAdd, mbind, M_bind, getThis, assign. cbn. by rewrite Htable.
Qed.

Lemma register_adds_route_witness :
  router Movies.created !! "get"%string = Some []
  ∧ ∃ server,
      mirageServer Movies.created = Some server
      ∧ register "get" "/movies/:id" [VFunction 0] Movies.created =
          (Ok (),
           set_router
             (<["get"%string :=
                  [] ++
                  [ {| RouteRecognizer.path := _getFullPath Movies.created "/movies/:id";
                       RouteRecognizer.handler :=
                         mirageHandler
                           (MirageServer.registerRouteHandler server "get" "/movies/:id"
                              (extractRouteArguments [VFunction 0]).1.1
                              (extractRouteArguments [VFunction 0]).1.2
                              (extractRouteArguments [VFunction 0]).2) |} ]]>
                (router Movies.created))
             Movies.created).
Proof.
  assert (Htable : router Movies.created !! "get"%string = Some [])
    by (vm_compute; reflexivity).
  split; [exact Htable|].
  destruct (mirageServer Movies.created) as [server|] eqn:Hserver;
    [|vm_compute in Hserver; discriminate Hserver].
  exists server. split; [reflexivity|].
  exact (register_adds_route "get" "/movies/:id" [VFunction 0] Movies.created
           server [] Hserver Htable).
Defined.

(** X12. A registration function fails without changing the instance
    when the Mirage server is lost (['Lost the mirageServer']) and when
    its verb has no route table (a [TypeError]). *)
Theorem register_fails (verb path : string) (args : list JSValue)
    (t : PlaywrightConfig) :
  (mirageServer t = None →
   register verb path args t = (Throw "Lost the mirageServer", t))
  ∧ (is_Some (mirageServer t) → router t !! verb = None →
     register verb path args t =
       (Throw "TypeError: Cannot read properties of undefined (reading 'add')", t)).
Proof.
  rewrite register_unfold. split.
  - by intros ->.
  - intros [server ->] Htable.
    unfold routerAdd, mbind, M_bind, getThis, throw. cbn. by rewrite Htable.
Qed.

Lemma register_fails_witness :
  register "get" "/movies/:id" [VFunction 0] newPlaywrightConfig
  = (Throw "Lost the mirageServer", newPlaywrightConfig)
  ∧ register "trace" "/movies/:id" [VFunction 0] Movies.created
    = (Throw "TypeError: Cannot read properties of undefined (reading 'add')",
       Movies.created).
Proof.
  split.
  - exact (proj1 (register_fails "get" "/movies/:id" [VFunction 0] newPlaywrightConfig)
             eq_refl).
  - assert (Hserver : is_Some (mirageServer Movies.created))
      by (vm_compute; eexists; reflexivity).
    assert (Htable : router Movies.created !! "trace"%string = None)
      by (vm_compute; reflexivity).
    exact (proj2 (register_fails "trace" "/movies/:id" [VFunction 0] Movies.created)
             Hserver Htable).
Defined.

Lemma routerAdd_frame (verb : string) (route : RouteRecognizer.Route)
    (t : PlaywrightConfig) :
  ∃ table, (routerAdd verb route t).2 = set_router (<[verb := table]> (router t)) t
           ∨ (routerAdd verb route t).2 = t.
Proof.
  unfold routerAdd, mbind, M_bind, getThis, assign, throw. cbn.
  destruct (router t !! verb) as [r|]; eexists; [left | right]; reflexivity.
  Unshelve. exact [].
Qed.

Section Isolation.

Variable recognize : RouteRecognizer.t → string → option RouteRecognizer.Results.

Lemma playwrightHandler_other_table (t : PlaywrightConfig) (verb : string)
    (table : RouteRecognizer.t) (request : PlaywrightRequest.t) :
  JS.toLowerCase (PlaywrightRequest.method request) ≠ verb →
  playwrightHandler recognize (set_router (<[verb := table]> (router t)) t) request
  = playwrightHandler recognize t request.
Proof.
  intros Hne.
  unfold playwrightHandler, matchesOf, routerGet, runPassthroughHandler, shouldLog.
  cbn [router set_router mirageServer].
  by rewrite lookup_insert_ne.
Qed.

(** X13. Verb isolation: registering a route under one verb, whether it
    succeeds or fails, does not change how a request with any other
    (lower-cased) method is dispatched. *)
Theorem register_other_verb (verb path : string) (args : list JSValue)
    (t : PlaywrightConfig) (request : PlaywrightRequest.t) :
  JS.toLowerCase (PlaywrightRequest.method request) ≠ verb →
  playwrightHandler recognize (register verb path args t).2 request
  = playwrightHandler recognize t request.
Proof.
  intros Hne. rewrite register_unfold.
  destruct (mirageServer t) as [server|]; [|reflexivity].
  destruct (routerAdd_frame verb
              {| RouteRecognizer.path := _getFullPath t path;
                 RouteRecognizer.handler :=
                   mirageHandler
                     (MirageServer.registerRouteHandler server verb path
                        (extractRouteArguments args).1.1
                        (extractRouteArguments args).1.2
                        (extractRouteArguments args).2) |} t) as [table [-> | ->]].
  - by apply playwrightHandler_other_table.
  - reflexivity.
Qed.

End Isolation.

(** Registering [GET /movies/:id] leaves a [POST] of the same URL a
    routing miss. *)
Lemma register_other_verb_witness :
  JS.toLowerCase "POST" ≠ "get"%string
  ∧ playwrightHandler RouteRecognizer.recognize
      (register "get" "/movies/:id" [VFunction 0] Movies.created).2
      (Movies.request "POST" "http://localhost/movies/42")
    = (Thrown "No Mirage route registered for /movies/42", []).
Proof.
  assert (H : JS.toLowerCase "POST" ≠ "get"%string) by discriminate.
  split; [exact H|].
  rewrite (register_other_verb RouteRecognizer.recognize "get" "/movies/:id"
             [VFunction 0] Movies.created
             (Movies.request "POST" "http://localhost/movies/42") H).
  reflexivity.
Defined.

(** ** Lifecycle *)

Lemma forEach_pure {A} (f : A → M unit) (g : A → PlaywrightConfig → PlaywrightConfig)
    (l : list A) (t : PlaywrightConfig) :
  (∀ x u, f x u = (Ok (), g x u)) →
  forEach f l t = (Ok (), foldl (λ u x, g x u) t l).
Proof.
  intros Hf. revert t. induction l as [|x l IH]; intros t; [reflexivity|].
  cbn [forEach foldl]. unfold mbind, M_bind. by rewrite Hf, IH.
Qed.

Lemma create_run (server : MirageServer.t) (c : ServerConfig.t)
    (t : PlaywrightConfig) :
  is_Some (ServerConfig.page c) →
  create server c t = (Ok (), created server c t).
Proof.
  intros [p Hp]. unfold create, created.
  unfold mbind at 1, M_bind at 1, assign at 1.
  unfold mbind at 1, M_bind at 1, getThis at 1.
  unfold mbind at 1, M_bind at 1, assign at 1.
  unfold mbind at 1, M_bind at 1, assign at 1.
  unfold mbind at 1, M_bind at 1, getThis at 1.
  cbv zeta.
  set (t1 := set_page _ _).
  assert (Hpage : page t1 = Some p) by (subst t1; exact Hp).
  rewrite Hpage.
  unfold mbind at 1, M_bind at 1. rewrite config_result.
  unfold mbind at 1, M_bind at 1.
  rewrite (forEach_pure _ installVerb).
  - reflexivity.
  - intros [verb [alias|]] u; reflexivity.
Qed.

Lemma create_fields (server : MirageServer.t) (c : ServerConfig.t)
    (t : PlaywrightConfig) (p : Page.t) :
  ServerConfig.page c = Some p →
  (create server c t).1 = Ok ()
  ∧ interceptUrlPattern (create server c t).2 =
      default (interceptUrlPattern t) (ServerConfig.interceptUrlPattern c)
  ∧ page (create server c t).2 =
      Some (Page.route
              (default (interceptUrlPattern t) (ServerConfig.interceptUrlPattern c)) p)
  ∧ playwrightHandlerDefined (create server c t).2 = true
  ∧ urlPrefix (create server c t).2 = urlPrefix (config c t).2
  ∧ namespace (create server c t).2 = namespace (config c t).2
  ∧ passthroughChecks (create server c t).2 = passthroughChecks t
  ∧ slots (create server c t).2 =
      <["options" := "options"]> (<["head" := "head"]> (<["patch" := "patch"]>
        (<["del" := "delete"]> (<["delete" := "delete"]> (<["put" := "put"]>
          (<["post" := "post"]> (<["get" := "get"]> (slots t))))))))
  ∧ router (create server c t).2 =
      <["options" := RouteRecognizer.new]> (<["head" := RouteRecognizer.new]>
        (<["patch" := RouteRecognizer.new]> (<["delete" := RouteRecognizer.new]>
          (<["put" := RouteRecognizer.new]> (<["post" := RouteRecognizer.new]>
            (<["get" := RouteRecognizer.new]> (router t))))))).
Proof.
  intros Hp. rewrite create_run by (by eexists). unfold created.
  cbn [fst snd]. rewrite config_result. cbn [fst snd]. rewrite Hp.
  repeat split.
Qed.

Lemma create_state (server : MirageServer.t) (c : ServerConfig.t)
    (t : PlaywrightConfig) (p : Page.t) :
  ServerConfig.page c = Some p →
  (create server c t).1 = Ok ()
  ∧ interceptUrlPattern (create server c t).2 =
      default (interceptUrlPattern t) (ServerConfig.interceptUrlPattern c)
  ∧ page (create server c t).2 =
      Some (Page.route
              (default (interceptUrlPattern t) (ServerConfig.interceptUrlPattern c)) p)
  ∧ playwrightHandlerDefined (create server c t).2 = true.
Proof.
  intros Hp. destruct (create_fields server c t p Hp) as (H1 & H2 & H3 & H4 & _).
  auto.
Qed.

(** X14. With a page, [create] returns normally, installs the
    dispatcher on that page for the intercept pattern (the one of the
    configuration, else the instance's current one), applies the composer
    configuration as [config] does, and leaves [passthroughChecks] alone. *)
Theorem create_installs (server : MirageServer.t) (c : ServerConfig.t)
    (t : PlaywrightConfig) (p : Page.t) :
  ServerConfig.page c = Some p →
  (create server c t).1 = Ok ()
  ∧ interceptUrlPattern (create server c t).2 =
      default (interceptUrlPattern t) (ServerConfig.interceptUrlPattern c)
  ∧ page (create server c t).2 =
      Some (Page.route
              (default (interceptUrlPattern t) (ServerConfig.interceptUrlPattern c)) p)
  ∧ playwrightHandlerDefined (create server c t).2 = true
  ∧ urlPrefix (create server c t).2 = urlPrefix (config c t).2
  ∧ namespace (create server c t).2 = namespace (config c t).2
  ∧ passthroughChecks (create server c t).2 = passthroughChecks t.
Proof.
  intros Hp.
  destruct (create_fields server c t p Hp) as (H1 & H2 & H3 & H4 & H5 & H6 & H7 & _).
  auto 10.
Qed.

Lemma create_installs_witness :
  page Movies.created = Some {| Page.routes := ["**"%string] |}
  ∧ playwrightHandlerDefined Movies.created = true
  ∧ urlPrefix Movies.created = Some EmptyString.
Proof.
  destruct (create_installs Movies.server Movies.mirageConfig newPlaywrightConfig
              {| Page.routes := [] |} eq_refl)
    as (_ & _ & Hpage & Hdefined & Hprefix & _).
  split; [exact Hpage | split; [exact Hdefined | exact Hprefix]].
Defined.

(** X15. [create] gives each of the seven verbs a new, empty route
    table, so that routes registered on the instance before are gone;
    tables under any other key are kept. *)
Theorem create_resets_tables (server : MirageServer.t) (c : ServerConfig.t)
    (t : PlaywrightConfig) (verb : string) :
  is_Some (ServerConfig.page c) →
  (verb ∈ defaultVerbs → router (create server c t).2 !! verb = Some RouteRecognizer.new)
  ∧ (verb ∉ defaultVerbs → router (create server c t).2 !! verb = router t !! verb).
Proof.
  intros Hpage. split.
  - intros Hin. by apply create_tables.
  - destruct Hpage as [p Hp]. intros Hnin.
    destruct (create_fields server c t p Hp) as (_ & _ & _ & _ & _ & _ & _ & _ & ->).
    assert (Hne : ∀ v, v ∈ defaultVerbs → v ≠ verb) by (by intros v Hv ->).
    rewrite !lookup_insert_ne; [done|apply Hne; apply list_elem_of_In; cbn; auto 10..].
Qed.

(** A second [create] on the scenario's instance drops the movie route. *)
Lemma create_resets_tables_witness :
  is_Some (ServerConfig.page Movies.mirageConfig)
  ∧ router Movies.instance !! "get"%string = Some (Movies.table Movies.handler)
  ∧ router (create Movies.server Movies.mirageConfig Movies.instance).2 !! "get"%string
    = Some RouteRecognizer.new.
Proof.
  assert (H : is_Some (ServerConfig.page Movies.mirageConfig)) by (eexists; reflexivity).
  split; [exact H | split; [reflexivity|]].
  apply (create_resets_tables Movies.server Movies.mirageConfig Movies.instance "get" H).
  apply list_elem_of_In. left. reflexivity.
Defined.

(** X16. After [create], each of the seven verb names calls the
    registration function of that verb, and [del] calls the one of
    [delete]. *)
Theorem create_aliases (server : MirageServer.t) (c : ServerConfig.t)
    (t : PlaywrightConfig) (path : string) (args : list JSValue) :
  is_Some (ServerConfig.page c) →
  call "del" path args (create server c t).2
    = register "delete" path args (create server c t).2
  ∧ ∀ verb, verb ∈ defaultVerbs →
      call verb path args (create server c t).2
      = register verb path args (create server c t).2.
Proof.
  intros [p Hp].
  destruct (create_fields server c t p Hp) as (_ & _ & _ & _ & _ & _ & _ & Hslots & _).
  assert (Hdel : slots (create server c t).2 !! "del"%string = Some "delete"%string).
  { rewrite Hslots. by simplify_map_eq. }
  assert (Hverbs : ∀ verb, verb ∈ defaultVerbs →
                     slots (create server c t).2 !! verb = Some verb).
  { intros verb Hin. rewrite Hslots. unfold defaultVerbs in Hin.
    repeat (apply elem_of_cons in Hin as [->|Hin]); [by simplify_map_eq ..|].
    by apply elem_of_nil in Hin. }
  split.
  - unfold call, mbind, M_bind, getThis. cbn [fst snd]. by rewrite Hdel.
  - intros verb Hin. unfold call, mbind, M_bind, getThis. cbn [fst snd].
    by rewrite (Hverbs verb Hin).
Qed.

Lemma create_aliases_witness :
  router (call "del" "/movies/:id" [VFunction 0] Movies.created).2 !! "delete"%string
  = Some (Movies.table Movies.handler).
Proof.
  assert (H : is_Some (ServerConfig.page Movies.mirageConfig)) by (eexists; reflexivity).
  unfold Movies.created.
  rewrite (proj1 (create_aliases Movies.server Movies.mirageConfig newPlaywrightConfig
                    "/movies/:id" [VFunction 0] H)).
  reflexivity.
Defined.

(** X17. Before [create] there is nothing to call or to tear down: each
    of the eight registration functions ([get], [post], [put], [delete],
    [del], [patch], [head], [options]) that is not assigned is a
    [TypeError] when called, and [shutdown] on an instance without page or
    without dispatcher returns normally; both leave the instance as it
    was. *)
Theorem not_created (t : PlaywrightConfig) (slot path : string) (args : list JSValue) :
  slot ∈ registrationFunctions →
  (slots t !! slot = None →
   call slot path args t =
     (Throw ("TypeError: this." +:+ slot +:+ " is not a function"), t))
  ∧ (page t = None ∨ playwrightHandlerDefined t = false →
     shutdown t = (Ok (), t)).
Proof.
  intros _. split.
  - intros Hslot. unfold call, mbind, M_bind, getThis, throw. cbn. by rewrite Hslot.
  - unfold shutdown, mbind, M_bind, getThis, mret, M_ret. cbn.
    intros [-> | ->]; [done|]. by destruct (page t).
Qed.

Lemma not_created_witness :
  ("get"%string ∈ registrationFunctions)
  ∧ call "get" "/movies/:id" [VFunction 0] newPlaywrightConfig
    = (Throw "TypeError: this.get is not a function", newPlaywrightConfig)
  ∧ shutdown newPlaywrightConfig = (Ok (), newPlaywrightConfig).
Proof.
  assert (H : "get"%string ∈ registrationFunctions) by left.
  split; [exact H|]. split.
  - exact (proj1 (not_created newPlaywrightConfig "get" "/movies/:id" [VFunction 0] H)
             eq_refl).
  - exact (proj2 (not_created newPlaywrightConfig "get" "/movies/:id" [VFunction 0] H)
             (or_introl eq_refl)).
Defined.

Lemma filter_other_pattern (pattern : string) (l : list string) :
  pattern ∉ l → filter (λ q, q ≠ pattern) (l ++ [pattern]) = l.
Proof.
  intros Hnin. rewrite filter_app, filter_cons, filter_nil.
  rewrite decide_False by (by intros H; apply H).
  rewrite app_nil_r. induction l as [|q l IH]; [done|].
  rewrite filter_cons, decide_True.
  - f_equal. apply IH. intros Hin. apply Hnin. by right.
  - intros ->. apply Hnin. left.
Qed.

(** X18. [shutdown] after [create] takes the dispatcher off the page
    again: on a page that had no route for the intercept pattern, the page
    is as it was before [create], while the route tables and everything
    else that [create] set up stay in place. *)
Theorem create_shutdown (server : MirageServer.t) (c : ServerConfig.t)
    (t : PlaywrightConfig) (p : Page.t) :
  ServerConfig.page c = Some p →
  default (interceptUrlPattern t) (ServerConfig.interceptUrlPattern c) ∉ Page.routes p →
  shutdown (create server c t).2 =
    (Ok (), set_page (Some p) (create server c t).2).
Proof.
  intros Hp Hnin.
  destruct (create_state server c t p Hp) as (_ & Hpattern & Hpage & Hdefined).
  unfold shutdown, mbind, M_bind, getThis, assign. cbn [fst snd].
  rewrite Hpage, Hdefined, Hpattern. do 3 f_equal.
  unfold Page.unroute, Page.route. cbn [Page.routes].
  rewrite (filter_other_pattern _ _ Hnin). by destruct p.
Qed.

Lemma create_shutdown_witness :
  ("**"%string ∉ Page.routes {| Page.routes := [] |})
  ∧ shutdown Movies.created =
      (Ok (), set_page (Some {| Page.routes := [] |}) Movies.created).
Proof.
  assert (H : "**"%string ∉ Page.routes {| Page.routes := [] |}).
  { cbn. apply not_elem_of_nil. }
  split; [exact H|].
  exact (create_shutdown Movies.server Movies.mirageConfig newPlaywrightConfig
           {| Page.routes := [] |} eq_refl H).
Defined.

(** ** [passthrough], continued *)

Lemma filter_strings (args : list PassthroughArg) :
  filter (λ a, isString a = true) args = ArgString <$> omap stringOf args.
Proof.
  induction args as [|a args IH]; [done|].
  rewrite filter_cons. destruct a; cbn; by rewrite IH.
Qed.

Lemma passthrough_selected (args : list PassthroughArg) :
  passthrough args =
    forEach (registerPassthrough (selectedVerbs args)) (ArgString <$> selectedPaths args).
Proof.
  rewrite passthrough_unfold. destruct args as [|a args]; [reflexivity|].
  cbn [length Nat.eqb]. unfold selectedVerbs, selectedPaths.
  destruct (last (a :: args)) as [[| |]|]; cbv zeta;
    rewrite pushStrings_filter, filter_strings; reflexivity.
Qed.

Lemma addForVerbs_is_Some route verbs (m : gmap string RouteRecognizer.t) verb :
  is_Some (m !! verb) → is_Some (addForVerbs route verbs m !! verb).
Proof.
  unfold addForVerbs. revert m. induction verbs as [|v verbs IH]; intros m Hm; [done|].
  cbn [foldl]. apply IH. rewrite lookup_alter.
  destruct (decide (v = verb)) as [->|]; [|done].
  destruct Hm as [r ->]. by eexists.
Qed.

(** The tables after the passthrough routes of [paths], composed on
    [t], have been added for [verbs]. *)
Lemma forEach_registerPassthrough verbs (paths : list string) (t : PlaywrightConfig)
    (m : gmap string RouteRecognizer.t) :
  (∀ verb, verb ∈ verbs → is_Some (m !! verb)) →
  forEach (registerPassthrough verbs) (ArgString <$> paths) (set_router m t) =
    (Ok (),
     set_router (foldl (λ m path, addForVerbs (passthroughRoute t path) verbs m) m paths)
                t).
Proof.
  revert m. induction paths as [|path paths IH]; intros m Hall; [reflexivity|].
  cbn [fmap list_fmap forEach foldl].
  unfold mbind at 1, M_bind at 1.
  assert (E : registerPassthrough verbs (ArgString path) (set_router m t) =
              (Ok (), set_router (addForVerbs (passthroughRoute t path) verbs m) t)).
  { unfold registerPassthrough, mbind, M_bind, getThis. cbv zeta.
    exact (forEach_routerAdd (passthroughRoute t path) verbs (set_router m t) Hall). }
  rewrite E. apply IH. intros verb Hin. by apply addForVerbs_is_Some, Hall.
Qed.

Lemma lookup_passthrough_tables verbs (paths : list string) (t : PlaywrightConfig)
    (m : gmap string RouteRecognizer.t) verb :
  NoDup verbs →
  foldl (λ m path, addForVerbs (passthroughRoute t path) verbs m) m paths !! verb =
    if decide (verb ∈ verbs)
    then (λ registered, registered ++ (passthroughRoute t <$> paths)) <$> m !! verb
    else m !! verb.
Proof.
  intros Hnd. revert m. induction paths as [|path paths IH]; intros m; cbn [foldl].
  - destruct (decide (verb ∈ verbs)); [|done].
    destruct (m !! verb); cbn; by rewrite ?app_nil_r.
  - rewrite IH, (lookup_addForVerbs _ _ _ _ Hnd).
    destruct (decide (verb ∈ verbs)); [|done].
    destruct (m !! verb); [|done]. cbn.
    unfold RouteRecognizer.add. by rewrite <-app_assoc.
Qed.

(** X19. When the verbs that [passthrough] selects (the last argument
    if it is an array, the seven defaults otherwise) are distinct and each
    has a route table, the call returns normally; the table of each
    selected verb then holds its earlier routes followed by one
    passthrough route per selected path (the string arguments in their
    order, or ["/**"] and ["/"] for an empty argument list), each composed
    by [_getFullPath]; nothing else changes. *)
Theorem passthrough_registers (args : list PassthroughArg) (t : PlaywrightConfig) :
  NoDup (selectedVerbs args) →
  (∀ verb, verb ∈ selectedVerbs args → is_Some (router t !! verb)) →
  ∃ tables,
    passthrough args t = (Ok (), set_router tables t)
    ∧ (∀ verb, verb ∈ selectedVerbs args →
         tables !! verb =
           (λ registered, registered ++ (passthroughRoute t <$> selectedPaths args))
             <$> router t !! verb)
    ∧ (∀ verb, verb ∉ selectedVerbs args → tables !! verb = router t !! verb).
Proof.
  intros Hnd Hall.
  exists (foldl (λ m path, addForVerbs (passthroughRoute t path) (selectedVerbs args) m)
                (router t) (selectedPaths args)).
  split; [|split].
  - rewrite passthrough_selected.
    replace t with (set_router (router t) t) at 1 by (by destruct t).
    by apply forEach_registerPassthrough.
  - intros verb Hin. by rewrite (lookup_passthrough_tables _ _ _ _ _ Hnd), decide_True.
  - intros verb Hnin. by rewrite (lookup_passthrough_tables _ _ _ _ _ Hnd), decide_False.
Qed.

(** Two paths for [GET] and [POST] only, on the scenario's instance. *)
Lemma passthrough_registers_witness :
  NoDup (selectedVerbs [ArgString "/assets/*path"; ArgString "ping";
                        ArgArray ["get"; "post"]%string])
  ∧ (router (passthrough [ArgString "/assets/*path"; ArgString "ping";
                          ArgArray ["get"; "post"]%string] Movies.instance).2
       !! "get"%string
     = Some (Movies.table Movies.handler
             ++ [passthroughRoute Movies.instance "/assets/*path";
                 passthroughRoute Movies.instance "ping"]))
  ∧ router (passthrough [ArgString "/assets/*path"; ArgString "ping";
                         ArgArray ["get"; "post"]%string] Movies.instance).2
      !! "put"%string
    = Some [].
Proof.
  assert (Hnd : NoDup (selectedVerbs [ArgString "/assets/*path"; ArgString "ping";
                                      ArgArray ["get"; "post"]%string])).
  { apply (bool_decide_unpack _). vm_compute. exact I. }
  split; [exact Hnd|].
  destruct (passthrough_registers
              [ArgString "/assets/*path"; ArgString "ping";
               ArgArray ["get"; "post"]%string] Movies.instance Hnd)
    as (tables & E & Hin & Hout).
  { intros verb Hv. cbn in Hv.
    repeat (apply elem_of_cons in Hv as [->|Hv]); [by eexists..|].
    by apply elem_of_nil in Hv. }
  rewrite E. cbn [snd router set_router]. split.
  - rewrite Hin; [reflexivity|]. apply list_elem_of_In. left. reflexivity.
  - rewrite Hout; [reflexivity|].
    intros Hv. cbn in Hv.
    repeat (apply elem_of_cons in Hv as [Hv|Hv]; [discriminate Hv|]).
    by apply elem_of_nil in Hv.
Defined.




(** X21. An array of verbs counts only as the last argument: anywhere
    before the last argument it is ignored. *)
Theorem passthrough_inner_array (before after : list PassthroughArg)
    (verbs : list string) :
  after ≠ [] →
  passthrough (before ++ ArgArray verbs :: after) = passthrough (before ++ after).
Proof.
  intros Hafter. rewrite !passthrough_selected.
  assert (Hverbs : selectedVerbs (before ++ ArgArray verbs :: after)
                   = selectedVerbs (before ++ after)).
  { unfold selectedVerbs. rewrite last_app_cons, last_cons, last_app.
    destruct after as [|a after]; [done|].
    by destruct (last (a :: after)) eqn:E; [|by rewrite last_cons in E;
                                                 destruct (last after)]. }
  assert (Hpaths : selectedPaths (before ++ ArgArray verbs :: after)
                   = selectedPaths (before ++ after)).
  { assert (Hne : ∀ args : list PassthroughArg,
                args ≠ [] → selectedPaths args = omap stringOf args)
      by (by intros [|a args]).
    rewrite !Hne, !omap_app; [done|..].
    - by destruct before, after.
    - by destruct before. }
  by rewrite Hverbs, Hpaths.
Qed.

Lemma passthrough_inner_array_witness :
  [ArgString "/ping"] ≠ []
  ∧ passthrough [ArgArray ["get"%string]; ArgString "/ping"] Movies.created
    = passthrough [ArgString "/ping"] Movies.created.
Proof.
  assert (H : [ArgString "/ping"] ≠ []) by discriminate.
  split; [exact H|].
  exact (f_equal (λ f, f Movies.created)
           (passthrough_inner_array [] [ArgString "/ping"] ["get"%string] H)).
Defined.

(** ** The dispatcher, continued *)

Section Handling.

Variable recognize : RouteRecognizer.t → string → option RouteRecognizer.Results.

Lemma playwrightHandler_matched (t : PlaywrightConfig) (request : PlaywrightRequest.t)
    (url : URL.t) (matches : RouteRecognizer.Results) (first : RouteRecognizer.Result)
    (handler : RouteHandler) :
  URL.parse (PlaywrightRequest.url request) = Some url →
  matchesOf recognize t (PlaywrightRequest.method request) (URL.pathname url)
    = Some matches →
  head (RouteRecognizer.results matches) = Some first →
  RouteRecognizer.result_handler first = mirageHandler handler →
  playwrightHandler recognize t request =
    match handler (mirageRequestOf request url matches first) with
    | Resolved response =>
        (Returned,
         [HandlerCall (mirageRequestOf request url matches first)]
         ++ (if shouldLog t
             then [ConsoleLog ("Mirage: [" +:+ pretty (status response) +:+ "] "
                               +:+ JS.toUpperCase (PlaywrightRequest.method request)
                               +:+ " " +:+ URL.href url)]
             else [])
         ++ [RouteFulfill response])
    | Rejected reason =>
        (Thrown reason, [HandlerCall (mirageRequestOf request url matches first)])
    | Pending => (Suspended, [HandlerCall (mirageRequestOf request url matches first)])
    end.
Proof.
  intros Hurl Hm Hfirst Hhandler.
  destruct (matchesOf_Some _ _ _ _ _ Hm) as (recognizer & _ & Hown & _).
  unfold playwrightHandler.
  rewrite Hurl, Hown, Hm. unfold matchOf. cbn [mbind option_bind].
  rewrite Hfirst, Hhandler. reflexivity.
Qed.

(** X22. When the first candidate for a request is a Mirage handler
    and the handler resolves, the dispatcher returns normally after
    calling the handler once, with the body ([""] when there is none),
    headers, pathname, path parameters and query parameters of the match,
    then logging if the server asks for it, then fulfilling the request
    with exactly the handler's status, headers and body; it never forwards
    such a request. *)
Theorem dispatch_handled (t : PlaywrightConfig) (request : PlaywrightRequest.t)
    (url : URL.t) (matches : RouteRecognizer.Results) (first : RouteRecognizer.Result)
    (handler : RouteHandler) (response : MirageRouteHandlerResponse) :
  URL.parse (PlaywrightRequest.url request) = Some url →
  matchesOf recognize t (PlaywrightRequest.method request) (URL.pathname url)
    = Some matches →
  head (RouteRecognizer.results matches) = Some first →
  RouteRecognizer.result_handler first = mirageHandler handler →
  handler (mirageRequestOf request url matches first) = Resolved response →
  playwrightHandler recognize t request =
    (Returned,
     [HandlerCall (mirageRequestOf request url matches first)]
     ++ (if shouldLog t
         then [ConsoleLog ("Mirage: [" +:+ pretty (status response) +:+ "] "
                           +:+ JS.toUpperCase (PlaywrightRequest.method request)
                           +:+ " " +:+ URL.href url)]
         else [])
     ++ [RouteFulfill response])
  ∧ RouteContinue ∉ (playwrightHandler recognize t request).2.
Proof.
  intros Hurl Hm Hfirst Hhandler Hresolved.
  rewrite (playwrightHandler_matched _ _ _ _ _ _ Hurl Hm Hfirst Hhandler), Hresolved.
  split; [reflexivity|]. cbn [snd].
  destruct (shouldLog t); cbn [app]; intros Hin;
    repeat (apply elem_of_cons in Hin as [Hin|Hin]; [discriminate Hin|]);
    by apply elem_of_nil in Hin.
Qed.

(** X23. When the matched handler fails, the dispatcher fails with the
    handler's own error, and when the handler never settles the dispatcher
    stays suspended; in both cases the handler has been called and the
    request is neither fulfilled nor forwarded. *)
Theorem dispatch_handler_failure (t : PlaywrightConfig) (request : PlaywrightRequest.t)
    (url : URL.t) (matches : RouteRecognizer.Results) (first : RouteRecognizer.Result)
    (handler : RouteHandler) :
  URL.parse (PlaywrightRequest.url request) = Some url →
  matchesOf recognize t (PlaywrightRequest.method request) (URL.pathname url)
    = Some matches →
  head (RouteRecognizer.results matches) = Some first →
  RouteRecognizer.result_handler first = mirageHandler handler →
  (∀ reason,
     handler (mirageRequestOf request url matches first) = Rejected reason →
     playwrightHandler recognize t request =
       (Thrown reason, [HandlerCall (mirageRequestOf request url matches first)]))
  ∧ (handler (mirageRequestOf request url matches first) = Pending →
     playwrightHandler recognize t request =
       (Suspended, [HandlerCall (mirageRequestOf request url matches first)])).
Proof.
  intros Hurl Hm Hfirst Hhandler.
  rewrite (playwrightHandler_matched _ _ _ _ _ _ Hurl Hm Hfirst Hhandler).
  split; [intros reason|]; by intros ->.
Qed.

(** X24. Every dispatch ends in exactly one of three ways: it returns
    after exactly one instruction to the interception facility (fulfill or
    continue), or it throws, or it stays suspended, in the last two cases
    without any such instruction. *)
Theorem dispatch_one_outcome (t : PlaywrightConfig) (request : PlaywrightRequest.t) :
  length (filter (λ e, isRouteAction e = true) (playwrightHandler recognize t request).2)
  = match (playwrightHandler recognize t request).1 with
    | Returned => 1
    | _ => 0
    end.
Proof.
  unfold playwrightHandler.
  destruct (URL.parse (PlaywrightRequest.url request)) as [url|]; [|reflexivity].
  destruct (matchesOf _ _ _ _) as [matches|];
    [|by destruct (routerGet t _)].
  assert (H : ∀ outcome : Completion * list Effect,
            length (filter (λ e, isRouteAction e = true) outcome.2)
            = match outcome.1 with Returned => 1 | _ => 0 end →
            length (filter (λ e, isRouteAction e = true)
                      (match routerGet t (JS.toLowerCase (PlaywrightRequest.method request))
                       with
                       | InheritedValue => (Thrown recognizeIsNotAFunction, [])
                       | _ => outcome
                       end).2)
            = match (match routerGet t (JS.toLowerCase (PlaywrightRequest.method request))
                     with
                     | InheritedValue => (Thrown recognizeIsNotAFunction, [])
                     | _ => outcome
                     end).1 with Returned => 1 | _ => 0 end).
  { intros outcome Houtcome. by destruct (routerGet t _). }
  apply H. clear H.
  unfold matchOf. cbn [mbind option_bind].
  destruct (head (RouteRecognizer.results matches)) as [first|]; [|reflexivity].
  destruct (RouteRecognizer.result_handler first) as [|handler].
  - unfold runPassthroughHandler. by destruct (shouldLog t).
  - destruct (handler _) as [response|reason|]; [|reflexivity..].
    by destruct (shouldLog t).
Qed.

End Handling.

(** The body of the request reaches the handler, and the response of
    the handler is what the request is fulfilled with. *)
Lemma dispatch_handled_witness :
  playwrightHandler RouteRecognizer.recognize
    (Failing.instance Movies.handler) (Movies.get ∅ (Some "payload"%string))
  = (Returned,
     [HandlerCall {| requestBody := "payload";
                     requestHeaders := ∅;
                     url := "/movies/42";
                     params := {[ "id"%string := "42"%string ]};
                     queryParams := ∅ |};
      RouteFulfill {| status := 200; headers := None; body := None |}]).
Proof.
  exact (proj1 (dispatch_handled RouteRecognizer.recognize
                  (Failing.instance Movies.handler)
                  (Movies.get ∅ (Some "payload"%string))
                  {| URL.href := "http://localhost/movies/42?sort=asc";
                     URL.pathname := "/movies/42";
                     URL.search := "?sort=asc" |}
                  {| RouteRecognizer.results :=
                       [ {| RouteRecognizer.result_handler := mirageHandler Movies.handler;
                            RouteRecognizer.result_params :=
                              {[ "id"%string := "42"%string ]};
                            RouteRecognizer.isDynamic := true |} ];
                     RouteRecognizer.results_queryParams := ∅ |}
                  {| RouteRecognizer.result_handler := mirageHandler Movies.handler;
                     RouteRecognizer.result_params := {[ "id"%string := "42"%string ]};
                     RouteRecognizer.isDynamic := true |}
                  Movies.handler
                  {| status := 200; headers := None; body := None |}
                  eq_refl eq_refl eq_refl eq_refl eq_refl)).
Defined.

Lemma dispatch_handler_failure_witness :
  playwrightHandler RouteRecognizer.recognize
    (Failing.instance Failing.rejecting) (Movies.get ∅ None)
  = (Thrown "no such movie",
     [HandlerCall {| requestBody := EmptyString;
                     requestHeaders := ∅;
                     url := "/movies/42";
                     params := {[ "id"%string := "42"%string ]};
                     queryParams := ∅ |}])
  ∧ playwrightHandler RouteRecognizer.recognize
      (Failing.instance Failing.silent) (Movies.get ∅ None)
    = (Suspended,
       [HandlerCall {| requestBody := EmptyString;
                       requestHeaders := ∅;
                       url := "/movies/42";
                       params := {[ "id"%string := "42"%string ]};
                       queryParams := ∅ |}]).
Proof.
  split.
  - exact (proj1 (dispatch_handler_failure RouteRecognizer.recognize
                    (Failing.instance Failing.rejecting) (Movies.get ∅ None)
                    {| URL.href := "http://localhost/movies/42?sort=asc";
                       URL.pathname := "/movies/42";
                       URL.search := "?sort=asc" |}
                    {| RouteRecognizer.results :=
                         [ {| RouteRecognizer.result_handler :=
                                mirageHandler Failing.rejecting;
                              RouteRecognizer.result_params :=
                                {[ "id"%string := "42"%string ]};
                              RouteRecognizer.isDynamic := true |} ];
                       RouteRecognizer.results_queryParams := ∅ |}
                    {| RouteRecognizer.result_handler := mirageHandler Failing.rejecting;
                       RouteRecognizer.result_params := {[ "id"%string := "42"%string ]};
                       RouteRecognizer.isDynamic := true |}
                    Failing.rejecting eq_refl eq_refl eq_refl eq_refl)
             "no such movie" eq_refl).
  - exact (proj2 (dispatch_handler_failure RouteRecognizer.recognize
                    (Failing.instance Failing.silent) (Movies.get ∅ None)
                    {| URL.href := "http://localhost/movies/42?sort=asc";
                       URL.pathname := "/movies/42";
                       URL.search := "?sort=asc" |}
                    {| RouteRecognizer.results :=
                         [ {| RouteRecognizer.result_handler :=
                                mirageHandler Failing.silent;
                              RouteRecognizer.result_params :=
                                {[ "id"%string := "42"%string ]};
                              RouteRecognizer.isDynamic := true |} ];
                       RouteRecognizer.results_queryParams := ∅ |}
                    {| RouteRecognizer.result_handler := mirageHandler Failing.silent;
                       RouteRecognizer.result_params := {[ "id"%string := "42"%string ]};
                       RouteRecognizer.isDynamic := true |}
                    Failing.silent eq_refl eq_refl eq_refl eq_refl)
             eq_refl).
Defined.

Lemma allChars_complete (c : ascii) : c ∈ allChars.
Proof.
  unfold allChars. apply list_elem_of_fmap. exists (nat_of_ascii c).
  split; [by rewrite ascii_nat_embedding|].
  apply elem_of_seq. pose proof (nat_ascii_bounded c). lia.
Qed.

Lemma case_chars (c1 c2 : ascii) :
  JS.lowerChar c1 = JS.lowerChar c2 → JS.upperChar c1 = JS.upperChar c2.
Proof.
  assert (H : forallb (λ c1, forallb (λ c2,
                implb (Ascii.eqb (JS.lowerChar c1) (JS.lowerChar c2))
                      (Ascii.eqb (JS.upperChar c1) (JS.upperChar c2)))
              allChars) allChars = true) by (vm_compute; reflexivity).
  rewrite forallb_forall in H.
  specialize (H c1 (proj1 (list_elem_of_In _ _) (allChars_complete c1))).
  rewrite forallb_forall in H.
  specialize (H c2 (proj1 (list_elem_of_In _ _) (allChars_complete c2))).
  intros Hlower. apply Ascii.eqb_eq in Hlower. rewrite Hlower in H.
  by apply Ascii.eqb_eq.
Qed.

Lemma case_strings (s1 s2 : string) :
  JS.toLowerCase s1 = JS.toLowerCase s2 → JS.toUpperCase s1 = JS.toUpperCase s2.
Proof.
  unfold JS.toLowerCase, JS.toUpperCase. revert s2.
  induction s1 as [|c1 s1 IH]; intros [|c2 s2]; cbn; try done.
  intros [= Hc Hs]. by rewrite (case_chars _ _ Hc), (IH _ Hs).
Qed.

Section MethodCase.

Variable recognize : RouteRecognizer.t → string → option RouteRecognizer.Results.

(** X25. The method of a request is matched without regard to letter
    case: two requests that differ only in the case of the letters of
    their method are dispatched alike. *)
Theorem dispatch_method_case (t : PlaywrightConfig) (method1 method2 url : string)
    (allHeaders : gmap string string) (postData : option string) :
  JS.toLowerCase method1 = JS.toLowerCase method2 →
  playwrightHandler recognize t
    {| PlaywrightRequest.method := method1; PlaywrightRequest.url := url;
       PlaywrightRequest.allHeaders := allHeaders;
       PlaywrightRequest.postData := postData |}
  = playwrightHandler recognize t
      {| PlaywrightRequest.method := method2; PlaywrightRequest.url := url;
         PlaywrightRequest.allHeaders := allHeaders;
         PlaywrightRequest.postData := postData |}.
Proof.
  intros Hlower. pose proof (case_strings _ _ Hlower) as Hupper.
  unfold playwrightHandler, matchesOf, runPassthroughHandler.
  cbn [PlaywrightRequest.method PlaywrightRequest.url PlaywrightRequest.allHeaders
       PlaywrightRequest.postData].
  by rewrite Hlower, Hupper.
Qed.

End MethodCase.

Lemma dispatch_method_case_witness :
  JS.toLowerCase "get" = JS.toLowerCase "GET"
  ∧ playwrightHandler RouteRecognizer.recognize Movies.instance
      (Movies.request "get" "http://localhost/movies/42")
    = playwrightHandler RouteRecognizer.recognize Movies.instance
        (Movies.request "GET" "http://localhost/movies/42").
Proof.
  split; [reflexivity|].
  exact (dispatch_method_case RouteRecognizer.recognize Movies.instance "get" "GET"
           "http://localhost/movies/42" ∅ None eq_refl).
Defined.

(** ** [passthrough()] and the earlier routes

    The route tables only record the registrations; whether an earlier
    route still answers its requests is a matter of the recognizer: a later
    registration replaces an earlier one that ends in the same state, and
    [sortSolutions] picks among the matching routes. *)




















Section Recognition.

Variable recognize : RouteRecognizer.t → string → option RouteRecognizer.Results.


End Recognition.



